(** * vanilla-form-validator: a shallow embedding of the validation core

    The development follows the three source modules of the library:
    - [IsHelper]  (isHelper.ts): the predicate library;
    - [Utils]     (utils.ts): [deepMerge] and the older shallow [merge];
    - [FormValidator] (vanilla-form-validator.ts): the rule evaluator, the
      form-wide aggregation and the construction of the settings.

    Conventions of the model.
    - A JavaScript string is a [string]; each character stands for one UTF-16
      code unit below 256, so [String.length] is the JavaScript [length].
    - A JavaScript number that the code uses as a count, a bound or a time
      value is an integer [Z]; [NaN] is [None] in an [option Z].
    - A JavaScript exception is the [Throw] case of [Result].
    - What the browser provides (the selector engine, [Date.parse], the
      [RegExp] constructor applied to a pattern attribute, the document in
      which error nodes are shown) is the interface [Host]. *)

From Stdlib Require Import String Ascii List ZArith NArith Bool DecimalString Lia.
Import ListNotations.
Open Scope string_scope.
Open Scope Z_scope.

Set Implicit Arguments.

(* ================================================================== *)
(** * Part I: definitions *)
(* ================================================================== *)

(** ** JavaScript basics *)

Module JS.

Inductive Exn : Type :=
| TypeError
| SyntaxError
| UserError (tag : string).

Inductive Result (A : Type) : Type :=
| Ok (a : A)
| Throw (e : Exn).

Arguments Ok {A} a.
Arguments Throw {A} e.

Definition rbind {A B} (r : Result A) (k : A -> Result B) : Result B :=
  match r with
  | Ok a => k a
  | Throw e => Throw e
  end.

(** Truthiness of a string: [if (s)]. *)
Definition truthy (s : string) : bool := negb (s =? "")%string.

(** Truthiness of an attribute read with [getAttribute] ([null] when absent). *)
Definition truthyAttr (o : option string) : bool :=
  match o with
  | Some s => truthy s
  | None => false
  end.

(** Truthiness of a number: neither [NaN] nor [0]. *)
Definition truthyNum (o : option Z) : bool :=
  match o with
  | Some n => negb (n =? 0)
  | None => false
  end.

(** [a >= b], [a <= b], [a < b], [a > b] on numbers: false as soon as one
    side is [NaN]. *)
Definition num_ge (a b : option Z) : bool :=
  match a, b with Some x, Some y => y <=? x | _, _ => false end.
Definition num_le (a b : option Z) : bool :=
  match a, b with Some x, Some y => x <=? y | _, _ => false end.
Definition num_lt (a b : option Z) : bool :=
  match a, b with Some x, Some y => x <? y | _, _ => false end.
Definition num_gt (a b : option Z) : bool :=
  match a, b with Some x, Some y => y <? x | _, _ => false end.

Definition code (c : ascii) : N := N_of_ascii c.

Definition inRange (lo hi : ascii) (c : ascii) : bool :=
  (code lo <=? code c)%N && (code c <=? code hi)%N.

Fixpoint oneOf (set : string) (c : ascii) : bool :=
  match set with
  | EmptyString => false
  | String x rest => Ascii.eqb x c || oneOf rest c
  end.

Definition isDigit : ascii -> bool := inRange "0" "9".
Definition isLower : ascii -> bool := inRange "a" "z".
Definition isUpper : ascii -> bool := inRange "A" "Z".

(** [\s] on code units below 256: TAB, LF, VT, FF, CR, space and U+00A0. *)
Definition isSpace (c : ascii) : bool :=
  ((9 <=? code c)%N && (code c <=? 13)%N) || (code c =? 32)%N || (code c =? 160)%N.

Definition lowerChar (c : ascii) : ascii :=
  if isUpper c then ascii_of_N (code c + 32) else c.

(** [String.prototype.toLowerCase] on the ASCII letters. *)
Fixpoint toLowerCase (s : string) : string :=
  match s with
  | EmptyString => EmptyString
  | String c rest => String (lowerChar c) (toLowerCase rest)
  end.

(** [s.substring(n)]. *)
Fixpoint drop (n : nat) (s : string) : string :=
  match n, s with
  | O, _ => s
  | S n', String _ rest => drop n' rest
  | S _, EmptyString => EmptyString
  end.

(** Does [pat] occur somewhere in [s]? *)
Fixpoint includes (pat s : string) : bool :=
  prefix pat s ||
  match s with
  | EmptyString => false
  | String _ rest => includes pat rest
  end.

(** [s.replace(pat, by)] for a string pattern: only the first occurrence is
    replaced.  The replacement texts of the library are decimal numerals, so
    the dollar patterns of [replace] never arise. *)
Fixpoint replace (pat by_ s : string) : string :=
  if prefix pat s then by_ ++ drop (String.length pat) s
  else match s with
       | EmptyString => EmptyString
       | String c rest => String c (replace pat by_ rest)
       end.

(** [n.toString()] for an integer. *)
Definition toString (n : Z) : string := NilZero.string_of_int (Z.to_int n).

Fixpoint trimStart (s : string) : string :=
  match s with
  | String c rest => if isSpace c then trimStart rest else s
  | EmptyString => EmptyString
  end.

Definition digitValue (radix : Z) (c : ascii) : option Z :=
  let v :=
    if isDigit c then Some (Z.of_N (code c) - 48)
    else if isLower c then Some (Z.of_N (code c) - 87)
    else if isUpper c then Some (Z.of_N (code c) - 55)
    else None in
  match v with
  | Some d => if d <? radix then Some d else None
  | None => None
  end.

(** The value of the longest prefix of digits of [s], with how many digits
    were read. *)
Fixpoint readDigits (radix : Z) (s : string) (acc : Z) (read : nat) : Z * nat :=
  match s with
  | String c rest =>
      match digitValue radix c with
      | Some d => readDigits radix rest (acc * radix + d) (S read)
      | None => (acc, read)
      end
  | EmptyString => (acc, read)
  end.

(** [parseInt(s)] with no radix argument. *)
Definition parseInt (s : string) : option Z :=
  let s1 := trimStart s in
  let '(sign, s2) :=
    match s1 with
    | String "-" rest => (-1, rest)
    | String "+" rest => (1, rest)
    | _ => (1, s1)
    end in
  let '(radix, s3) :=
    match s2 with
    | String "0" (String x rest) =>
        if oneOf "xX" x then (16, rest) else (10, s2)
    | _ => (10, s2)
    end in
  match readDigits radix s3 0 O with
  | (_, O) => None
  | (n, S _) => Some (sign * n)
  end.

End JS.

Import JS.

(** ** Regular expressions

    The regular-expression literals of isHelper.ts are all anchored by [^]
    and [$] and have no back-reference, so [test] decides membership in a
    regular language.  [NotAhead la r] is a negative look-ahead [(?!la)]
    followed by [r], where [r] runs to the end of the input. *)

Module Regex.

Inductive re : Type :=
| Void
| Eps
| Chr (p : ascii -> bool)
| Cat (r1 r2 : re)
| Alt (r1 r2 : re)
| Star (r : re)
| NotAhead (la r : re).

Fixpoint nullable (r : re) : bool :=
  match r with
  | Void => false
  | Eps => true
  | Chr _ => false
  | Cat a b => nullable a && nullable b
  | Alt a b => nullable a || nullable b
  | Star _ => true
  | NotAhead la a => negb (nullable la) && nullable a
  end.

Definition cat (a b : re) : re :=
  match a, b with
  | Void, _ => Void
  | _, Void => Void
  | Eps, _ => b
  | _, _ => Cat a b
  end.

Definition alt (a b : re) : re :=
  match a, b with
  | Void, _ => b
  | _, Void => a
  | _, _ => Alt a b
  end.

Fixpoint deriv (c : ascii) (r : re) : re :=
  match r with
  | Void => Void
  | Eps => Void
  | Chr p => if p c then Eps else Void
  | Cat a b =>
      if nullable a then alt (cat (deriv c a) b) (deriv c b)
      else cat (deriv c a) b
  | Alt a b => alt (deriv c a) (deriv c b)
  | Star a => cat (deriv c a) (Star a)
  | NotAhead la a =>
      if nullable la then Void else NotAhead (deriv c la) (deriv c a)
  end.

(** [/^r$/.test(s)]. *)
Fixpoint test (r : re) (s : string) : bool :=
  match s with
  | EmptyString => nullable r
  | String c rest => test (deriv c r) rest
  end.

(** Derived forms. *)
Definition opt (r : re) : re := Alt Eps r.
Definition plus (r : re) : re := Cat r (Star r).
Definition chr (c : ascii) : re := Chr (Ascii.eqb c).

Fixpoint lit (s : string) : re :=
  match s with
  | EmptyString => Eps
  | String c rest => Cat (chr c) (lit rest)
  end.

(** [r{n}] *)
Fixpoint exactly (n : nat) (r : re) : re :=
  match n with
  | O => Eps
  | S n' => Cat r (exactly n' r)
  end.

(** [r{0,n}] *)
Fixpoint upto (n : nat) (r : re) : re :=
  match n with
  | O => Eps
  | S n' => opt (Cat r (upto n' r))
  end.

(** [r{lo,hi}] *)
Definition rep (lo hi : nat) (r : re) : re :=
  Cat (exactly lo r) (upto (hi - lo) r).

(** [r{lo,}] *)
Definition atLeast (lo : nat) (r : re) : re :=
  Cat (exactly lo r) (Star r).

(** The language of a regular expression. *)
Inductive star_lang (L : string -> Prop) : string -> Prop :=
| star_nil : star_lang L ""
| star_app : forall s1 s2, L s1 -> star_lang L s2 -> star_lang L (s1 ++ s2).

Fixpoint lang (r : re) (s : string) : Prop :=
  match r with
  | Void => False
  | Eps => s = ""
  | Chr p => exists c, s = String c "" /\ p c = true
  | Cat a b => exists s1 s2, s = s1 ++ s2 /\ lang a s1 /\ lang b s2
  | Alt a b => lang a s \/ lang b s
  | Star a => star_lang (lang a) s
  | NotAhead la a => lang a s /\ forall p q, s = p ++ q -> ~ lang la p
  end.

End Regex.

(** ** The document model *)

Module DOM.

(** An element of the form, as far as the validator reads it. *)
Record Field : Type := {
  nodeName : string;                   (* element.nodeName *)
  id : string;                         (* field.id *)
  name : string;                       (* field.name *)
  type_ : string;                      (* field.type *)
  pattern : option string;             (* field.pattern; undefined off an input *)
  value : string;                      (* field.value *)
  attributes : list (string * string); (* content attributes, in order *)
  files : option nat;                  (* field.files, as its length *)
  checked : bool;                      (* field.checked *)
  options : list bool                  (* selected flag of each option below *)
}.

Definition getAttribute (f : Field) (attr : string) : option string :=
  match find (fun kv => (fst kv =? attr)%string) (attributes f) with
  | Some kv => Some (snd kv)
  | None => None
  end.

Definition hasAttribute (f : Field) (attr : string) : bool :=
  existsb (fun kv => (fst kv =? attr)%string) (attributes f).

(** [field.dataset.errorMessage] reflects the attribute data-error-message. *)
Definition dataset_errorMessage (f : Field) : option string :=
  getAttribute f "data-error-message".

(** The text of an attribute that was tested truthy. *)
Definition text (o : option string) : string :=
  match o with
  | Some s => s
  | None => ""
  end.

(** The bound form: its descendant elements in document order.  The error
    nodes that the validator inserts are not among the elements that the
    selectors of the rules match, so the list does not change while a form
    is validated. *)
Record Form : Type := { elements : list Field }.

(** What the browser provides. *)
Class Host : Type := {
  (** [Date.parse]: a time value in milliseconds, [None] for [NaN]. *)
  Date_parse : string -> option Z;
  (** [(new RegExp(pattern)).test(value)]; a malformed pattern throws. *)
  RegExp_test : string -> string -> Result bool;
  (** A selector read by the engine: a malformed one throws, a well-formed
      one is the predicate [element.matches(selector)]. *)
  selector : string -> Result (Field -> bool);
  (** The update of the error node, once it was looked up (creation,
      placement through [errorPlacement], text, visibility, field class),
      for the node identifier, the field, the verdict and the message. *)
  display : string -> Field -> bool -> string -> Result unit
}.

Definition querySelectorAll `{Host} (form : Form) (sel : string)
  : Result (list Field) :=
  rbind (selector sel) (fun p => Ok (filter p (elements form))).

Definition querySelector `{Host} (form : Form) (sel : string)
  : Result (option Field) :=
  rbind (querySelectorAll form sel) (fun l => Ok (head l)).

End DOM.

Import DOM.

(** ** isHelper.ts *)

Module IsHelper.

Import Regex.

Definition notEmpty (value : string) : bool :=
  (0 <? Z.of_nat (String.length value)).

Definition validRegExp `{Host} (pattern value : string) : Result bool :=
  RegExp_test pattern value.

Definition alnum (c : ascii) : bool := isLower c || isUpper c || isDigit c.
Definition alnumHyphen (c : ascii) : bool := alnum c || Ascii.eqb c "-".
Definition localChar (c : ascii) : bool :=
  alnum c || oneOf ".!#$%&'*+/=?^_`{|}~-" c.

(** One label: an alphanumeric, then optionally up to 61 alphanumerics or
    hyphens closed by an alphanumeric. *)
Definition emailLabel : re :=
  Cat (Chr alnum) (opt (Cat (rep 0 61 (Chr alnumHyphen)) (Chr alnum))).

(** A label followed by any number (zero included) of dot-prefixed labels. *)
Definition emailDomain : re :=
  Cat emailLabel (Star (Cat (chr ".") emailLabel)).

Definition emailRe : re :=
  Cat (plus (Chr localChar)) (Cat (chr "@") emailDomain).

Definition validEmail (value : string) : bool := test emailRe value.

(** The URL pattern carries the [i] flag: letters match in either case. *)
Definition chrCI (c : ascii) : re :=
  Chr (fun x => Ascii.eqb (lowerChar x) (lowerChar c)).

Fixpoint litCI (s : string) : re :=
  match s with
  | EmptyString => Eps
  | String c rest => Cat (chrCI c) (litCI rest)
  end.

(** The classes of the URL pattern on code units below 256: the class of
    what is no white space, and the range from U+00A1 to U+FFFF as far as
    it reaches here, to U+00FF (its white-space members, from U+1680 on,
    lie above). *)
Definition nonSpace (c : ascii) : bool := negb (isSpace c).
Definition high (c : ascii) : bool := (161 <=? code c)%N.
Definition hostChar (c : ascii) : bool := alnum c || high c.
Definition tldChar (c : ascii) : bool := isLower c || isUpper c || high c.

Definition digit : re := Chr isDigit.
Definition dot : re := chr ".".

Definition urlScheme : re :=
  Alt (Cat (litCI "http") (opt (chrCI "s"))) (litCI "ftp").

(** Optional userinfo: non-spaces, optionally a colon and non-spaces, then
    an at-sign. *)
Definition urlUserinfo : re :=
  opt (Cat (plus (Chr nonSpace))
           (Cat (opt (Cat (chr ":") (Star (Chr nonSpace)))) (chr "@"))).

(** [n] groups of a dot and one to three digits. *)
Definition dotOctets (n : nat) : re := exactly n (Cat dot (rep 1 3 digit)).

(** The three excluded address ranges. *)
Definition urlPrivate1 : re := Cat (Alt (lit "10") (lit "127")) (dotOctets 3).
Definition urlPrivate2 : re :=
  Cat (Alt (lit "169.254") (lit "192.168")) (dotOctets 2).
Definition urlPrivate3 : re :=
  Cat (lit "172.")
      (Cat (Alt (Cat (chr "1") (Chr (inRange "6" "9")))
                (Alt (Cat (chr "2") digit)
                     (Cat (chr "3") (Chr (inRange "0" "1")))))
           (dotOctets 2)).

(** First octet: 1..223. *)
Definition urlFirstOctet : re :=
  Alt (Cat (Chr (inRange "1" "9")) (opt digit))
      (Alt (Cat (chr "1") (Cat digit digit))
           (Alt (Cat (chr "2") (Cat (Chr (inRange "0" "1")) digit))
                (Cat (lit "22") (Chr (inRange "0" "3"))))).

(** Two middle octets, each a dot and 0..255 (a leading 1 optional before
    one or two digits). *)
Definition urlMidOctets : re :=
  exactly 2
    (Cat dot
         (Alt (Cat (opt (chr "1")) (rep 1 2 digit))
              (Alt (Cat (chr "2") (Cat (Chr (inRange "0" "4")) digit))
                   (Cat (lit "25") (Chr (inRange "0" "5")))))).

(** Last octet: a dot and 1..254. *)
Definition urlLastOctet : re :=
  Cat dot
      (Alt (Cat (Chr (inRange "1" "9")) (opt digit))
           (Alt (Cat (chr "1") (Cat digit digit))
                (Alt (Cat (chr "2") (Cat (Chr (inRange "0" "4")) digit))
                     (Cat (lit "25") (Chr (inRange "0" "4")))))).

(** A host label: groups of a host character and hyphens, then one or more
    host characters. *)
Definition urlHostLabel : re :=
  Cat (Star (Cat (Chr hostChar) (Star (chr "-")))) (plus (Chr hostChar)).

(** host name, further labels, TLD of two letters or more, optional dot *)
Definition urlHostName : re :=
  Cat urlHostLabel
      (Cat (Star (Cat dot urlHostLabel))
           (Cat (Cat dot (atLeast 2 (Chr tldChar))) (opt dot))).

(** Optional port of two to five digits, optional path, query or fragment
    of non-spaces. *)
Definition urlTail : re :=
  Cat (opt (Cat (chr ":") (rep 2 5 digit)))
      (opt (Cat (Chr (oneOf "/?#")) (Star (Chr nonSpace)))).

Definition urlRe : re :=
  Cat urlScheme
      (Cat (lit "://")
           (Cat urlUserinfo
                (Alt (NotAhead urlPrivate1
                        (NotAhead urlPrivate2
                           (NotAhead urlPrivate3
                              (Cat urlFirstOctet
                                   (Cat urlMidOctets
                                        (Cat urlLastOctet urlTail))))))
                     (Cat urlHostName urlTail)))).

Definition validUrl (value : string) : bool := test urlRe value.

(** One or more digits. *)
Definition validDigits (value : string) : bool := test (plus digit) value.

(** Up to two spaces, an optional plus, 6 to 20 digits or spaces, up to two
    spaces. *)
Definition phoneRe : re :=
  Cat (rep 0 2 (Chr isSpace))
      (Cat (opt (chr "+"))
           (Cat (rep 6 20 (Chr (fun c => isSpace c || isDigit c)))
                (rep 0 2 (Chr isSpace)))).

Definition validPhone (value : string) : bool := test phoneRe value.

Definition validDate `{Host} (field : Field) : bool :=
  let fieldValue := value field in
  let value := Date_parse fieldValue in
  if truthyNum value then
    if hasAttribute field "min"
       && (let attrMin := getAttribute field "min" in
           truthyAttr attrMin
           && negb (text attrMin =? "")%string
           && num_lt value (Date_parse (text attrMin)))
    then false
    else
      if hasAttribute field "max"
         && (let attrMax := getAttribute field "max" in
             truthyAttr attrMax
             && negb (text attrMax =? "")%string
             && num_gt value (Date_parse (text attrMax)))
      then false
      else true
  else false.

End IsHelper.

(** ** utils.ts *)

Module Utils.

(** JavaScript values as far as a configuration object is made of them:
    primitives, functions (known by a tag) and plain objects or arrays.  An
    object is its list of own enumerable properties; an array is an object
    whose [isArray] flag is set and whose elements are the properties named
    by their indices.  Values are trees: no object is reachable along two
    paths, so the [seen] table of [deepMerge], which is keyed by object
    identity, never finds an entry. *)
#[local] Unset Elimination Schemes.
Inductive jsval : Type :=
| JUndefined
| JNull
| JBool (b : bool)
| JNum (n : Z)
| JStr (s : string)
| JFun (tag : string)
| JObj (isArray : bool) (props : list (string * jsval)).
#[local] Set Elimination Schemes.

Definition isUndefined (v : jsval) : bool :=
  match v with
  | JUndefined => true
  | _ => false
  end.

(** [o[key]] on the property list of an object. *)
Definition get (props : list (string * jsval)) (key : string) : jsval :=
  match find (fun kv => (fst kv =? key)%string) props with
  | Some kv => snd kv
  | None => JUndefined
  end.

(** [Object.keys(o)] *)
Definition keys (props : list (string * jsval)) : list string :=
  map fst props.

Definition mem (k : string) (l : list string) : bool :=
  existsb (String.eqb k) l.

(** [new Set(l)]: the first occurrence of each key, in order. *)
Fixpoint setOf (seen l : list string) : list string :=
  match l with
  | [] => []
  | k :: rest =>
      if mem k seen then setOf seen rest else k :: setOf (k :: seen) rest
  end.

(** Is the property name an array index? *)
Definition isIndex (k : string) : bool :=
  match parseInt k with
  | Some n => (toString n =? k)%string && (0 <=? n) && (n <? 4294967295)
  | None => false
  end.

(** [array.map(clone)] visits the elements of an array, not its other
    properties. *)
Fixpoint clone (v : jsval) : jsval :=
  match v with
  | JObj isArr props =>
      let cloned :=
        (fix go (ps : list (string * jsval)) : list (string * jsval) :=
           match ps with
           | [] => []
           | (k, x) :: rest =>
               if isArr && negb (isIndex k) then go rest
               else (k, clone x) :: go rest
           end) props in
      JObj isArr cloned
  | _ => v
  end.

(** The inner [merge] of [deepMerge].  The recursion is on the override [b]:
    [withB] pairs each property of [b] with the merge into it, so that the
    call [merge(valA, valB)] is on a component of [b]. *)
Fixpoint merge (a b : jsval) {struct b} : jsval :=
  match b with
  | JObj isArr bprops =>
      match a with
      | JObj _ aprops =>
          let withB :=
            (fix go (ps : list (string * jsval))
               : list (string * (jsval * (jsval -> jsval))) :=
               match ps with
               | [] => []
               | (k, valB) :: rest =>
                   (k, (valB, fun valA => merge valA valB)) :: go rest
               end) bprops in
          JObj isArr
            (map (fun key =>
                    let valA := get aprops key in
                    match find (fun kv => (fst kv =? key)%string) withB with
                    | Some (_, (valB, mergeB)) =>
                        if isUndefined valB then (key, clone valA)
                        else (key, mergeB valA)
                    | None => (key, clone valA)
                    end)
                 (setOf [] (keys aprops ++ keys bprops)))
      | _ => clone b
      end
  | _ => b
  end.

Definition deepMerge (obj1 obj2 : jsval) : jsval := merge obj1 obj2.

(** The body of the loop of [merge]: the right-hand side of the equation
    that the recursive definition satisfies (see [merge_object]). *)
Definition mergeKey (aprops bprops : list (string * jsval)) (key : string)
  : string * jsval :=
  let valA := get aprops key in
  let valB := get bprops key in
  if isUndefined valB then (key, clone valA) else (key, merge valA valB).

(** [o[i] = v] on a property list. *)
Fixpoint set (props : list (string * jsval)) (i : string) (v : jsval)
  : list (string * jsval) :=
  match props with
  | [] => [(i, v)]
  | (k, x) :: rest =>
      if (k =? i)%string then (k, v) :: rest else (k, x) :: set rest i v
  end.

(** The older exported [merge(o1, o2)]: every property of [o1] is written
    into [o2], which is returned.  It is modelled on plain objects. *)
Definition shallowMerge (o1 o2 : list (string * jsval))
  : list (string * jsval) :=
  fold_left (fun acc kv => set acc (fst kv) (snd kv)) o1 o2.

End Utils.

(** ** vanilla-form-validator.ts *)

Module FormValidator.

Import IsHelper Utils.

(** *** The declared types (types.ts) *)

Module Messages.
Record t : Type := {
  required : string;
  remote : string;
  email : string;
  url : string;
  date : string;
  number : string;
  phone : string;
  file : string;
  equalTo : string;
  maxlength : string;
  minlength : string;
  rangelength : string;
  max : string;
  min : string;
  range : string;
  regExp : string
}.
End Messages.

(** [rule.method]: a function, a rule name, or nothing. *)
Inductive Method : Type :=
| MethodFunction (f : string -> Field -> Result bool)
| MethodName (m : string)
| MethodNone.

Module Rule.
Record t : Type := {
  method : Method;
  field : option string;
  min : option Z;
  max : option Z;
  errorMessage : option string
}.
End Rule.

Module FieldSetting.
Record t : Type := {
  name : option string;
  rules : option (list Rule.t)
}.
End FieldSetting.

(** The settings that the rule evaluator reads.  The callbacks
    [errorPlacement] and [submitHandler] and the class names act on the
    document only; they are behind [display]. *)
Module Settings.
Record t : Type := {
  ignore : option string;
  fields : option (list FieldSetting.t)
}.
End Settings.

(** The private members of a validator. *)
Record Validator : Type := {
  form : option Form;
  fields : option (list Field);
  settings : option Settings.t;
  messages : Messages.t
}.

Definition defaultMessages : Messages.t := {|
  Messages.required := "This field is required.";
  Messages.remote := "Please fix this field.";
  Messages.email := "Please enter a valid email address.";
  Messages.url := "Please enter a valid URL.";
  Messages.date := "Please enter a valid date.";
  Messages.number := "Please enter a valid number.";
  Messages.phone := "Please enter a valid phone.";
  Messages.file := "Please select a file.";
  Messages.equalTo := "Please enter the same value again.";
  Messages.maxlength := "Please enter no more than {0} characters.";
  Messages.minlength := "Please enter at least {0} characters.";
  Messages.rangelength :=
    "Please enter a value between {0} and {1} characters long";
  Messages.max := "Please enter a value than {0}.";
  Messages.min := "Please enter a value at least {0}.";
  Messages.range := "Please enter a value between {0} and {1}";
  Messages.regExp := "Please enter a value matching the requested format."
|}.

(** *** The verdict under construction

    [isValid] and [errorMessage] are the two local variables of
    [validateField].  [trace] records, for every assignment to [isValid],
    which check made it, its outcome and the message in force after it. *)

Inductive Check : Type :=
| CkRequired
| CkEmail | CkPhone | CkUrl | CkFile | CkDate
| CkMin | CkMax | CkRange
| CkPattern
| CkCustom | CkEqualTo | CkRuleMin | CkRuleMax | CkRuleRange.

Record Event : Type := {
  check : Check;
  passed : bool;
  message : string
}.

Record VState : Type := {
  isValid : bool;
  errorMessage : string;
  trace : list Event
}.

(** State and exceptions. *)
Definition M (A : Type) : Type := VState -> Result A * VState.

Definition ret {A} (a : A) : M A := fun s => (Ok a, s).

Definition bind {A B} (m : M A) (k : A -> M B) : M B :=
  fun s =>
    match m s with
    | (Ok a, s') => k a s'
    | (Throw e, s') => (Throw e, s')
    end.

Definition lift {A} (r : Result A) : M A := fun s => (r, s).

Definition getValid : M bool := fun s => (Ok (isValid s), s).

Declare Scope js_scope.
Delimit Scope js_scope with js.
Notation "x <- c1 ;; c2" := (bind c1 (fun x => c2))
  (at level 100, c1 at next level, right associativity) : js_scope.
Notation "c1 ;; c2" := (bind c1 (fun _ => c2))
  (at level 100, right associativity) : js_scope.
Local Open Scope js_scope.

(** [when c m]: [if (c) { m }] *)
Definition when (c : bool) (m : M unit) : M unit :=
  if c then m else ret tt.

(** [l.forEach(f)] *)
Fixpoint forEach {A} (l : list A) (f : A -> M unit) : M unit :=
  match l with
  | [] => ret tt
  | x :: rest => f x ;; forEach rest f
  end.

(** [isValid = r; if (!isValid && !customErrorMessage) errorMessage = msg;] *)
Definition setVerdict (custom : string) (c : Check) (r : bool) (msg : string)
  : M unit :=
  fun s =>
    let m := if negb r && negb (truthy custom) then msg else errorMessage s in
    (Ok tt,
     {| isValid := r;
        errorMessage := m;
        trace := trace s ++ [{| check := c; passed := r; message := m |}] |}).

(** [a ? a : b] on an optional message. *)
Definition orElse (a : option string) (b : string) : string :=
  if truthyAttr a then text a else b.

Definition dquote : string := String (ascii_of_nat 34) EmptyString.

Section WithHost.

Context `{Host}.
Variable this : Validator.

(** *** Helpers of the class *)

Definition cssMeta : string :=
  ("\!" ++ dquote ++ "#$%&'()*+,./:;<=>?@[]^`{|}~")%string.

Fixpoint escapeCssMeta (s : string) : string :=
  match s with
  | EmptyString => EmptyString
  | String c rest =>
      if oneOf cssMeta c then String "\" (String c (escapeCssMeta rest))
      else String c (escapeCssMeta rest)
  end.

Definition findByName (name : string) : Result (list Field) :=
  match form this with
  | Some f =>
      querySelectorAll f ("[name='" ++ escapeCssMeta name ++ "']")%string
  | None => Ok []
  end.

Definition checkable (element : Field) : bool :=
  let t := toLowerCase (type_ element) in
  includes "radio" t || includes "checkbox" t.

Definition count {A} (p : A -> bool) (l : list A) : Z :=
  Z.of_nat (List.length (filter p l)).

Definition getLength (value : string) (element : Field)
  : Result (option Z) :=
  let node := toLowerCase (nodeName element) in
  if (node =? "select")%string then
    Ok (Some (count (fun selected => selected) (options element)))
  else if (node =? "input")%string then
    if checkable element then
      rbind (findByName (name element))
            (fun els => Ok (Some (count checked els)))
    else if (type_ element =? "number")%string then Ok (parseInt value)
    else if (type_ element =? "file")%string then
      match files element with
      | Some n => Ok (Some (Z.of_nat n))
      | None => Ok (Some 0)
      end
    else Ok (Some (Z.of_nat (String.length value)))
  else Ok (Some (Z.of_nat (String.length value))).

(** The value handed over by [validateField] is a string, never an array. *)
Definition minlength (value : string) (element : Field) (param : option Z)
  : Result bool :=
  rbind (getLength value element) (fun length => Ok (num_ge length param)).

Definition maxlength (value : string) (element : Field) (param : option Z)
  : Result bool :=
  rbind (getLength value element) (fun length => Ok (num_le length param)).

Definition rangelength (value : string) (element : Field)
  (param : option Z * option Z) : Result bool :=
  rbind (getLength value element)
        (fun length =>
           Ok (num_ge length (fst param) && num_le length (snd param))).

(** The loop returns at the first checked element.  (It also removes the
    error class from the group, in the document.) *)
Fixpoint firstChecked (element : list Field) : bool :=
  match element with
  | [] => false
  | e :: rest => if checked e then true else firstChecked rest
  end.

Definition validateCheckboxRadio (name : string) : Result bool :=
  match form this with
  | Some f =>
      rbind (querySelectorAll f ("input[name=" ++ dquote ++ name ++ dquote ++ "]")%string)
            (fun element => Ok (firstChecked element))
  | None => Ok false
  end.

(** *** validateField: the verdict *)

Definition customErrorMessage (field : Field) : string :=
  if truthyAttr (dataset_errorMessage field)
  then text (dataset_errorMessage field) else "".

(** [let errorMessage = ''; if (customErrorMessage) errorMessage = ...;
    let isValid = true;] *)
Definition initial (field : Field) : VState :=
  {| isValid := true;
     errorMessage :=
       if truthy (customErrorMessage field) then customErrorMessage field
       else "";
     trace := [] |}.

Definition isCheckboxOrRadio (fieldType : string) : bool :=
  (fieldType =? "checkbox")%string || (fieldType =? "radio")%string.

Definition requiredCheck (field : Field) : M unit :=
  let custom := customErrorMessage field in
  when (hasAttribute field "required")
    (if isCheckboxOrRadio (type_ field) then
       r <- lift (validateCheckboxRadio (name field)) ;;
       setVerdict custom CkRequired r (Messages.required (messages this))
     else
       setVerdict custom CkRequired (notEmpty (value field))
         (Messages.required (messages this))).

(** [getAttribute(long) ? getAttribute(long) : getAttribute(short)] *)
Definition bound (field : Field) (long short : string) : option string :=
  if truthyAttr (getAttribute field long) then getAttribute field long
  else getAttribute field short.

(** [b && validDigits(b)] *)
Definition usable (b : option string) : bool :=
  truthyAttr b && validDigits (text b).

Definition minCheck (field : Field) : M unit :=
  let custom := customErrorMessage field in
  let msgs := messages this in
  let minlength_ := bound field "minlength" "min" in
  when (usable minlength_)
    (r <- lift (minlength (value field) field (parseInt (text minlength_))) ;;
     setVerdict custom CkMin r
       (if truthyAttr (getAttribute field "min")
        then replace "{0}" (text minlength_) (Messages.min msgs)
        else replace "{0}" (text minlength_) (Messages.minlength msgs))).

Definition maxCheck (field : Field) : M unit :=
  let custom := customErrorMessage field in
  let msgs := messages this in
  let maxlength_ := bound field "maxlength" "max" in
  when (usable maxlength_)
    (r <- lift (maxlength (value field) field (parseInt (text maxlength_))) ;;
     setVerdict custom CkMax r
       (if truthyAttr (getAttribute field "max")
        then replace "{0}" (text maxlength_) (Messages.max msgs)
        else replace "{0}" (text maxlength_) (Messages.maxlength msgs))).

Definition rangeCheck (field : Field) : M unit :=
  let custom := customErrorMessage field in
  let msgs := messages this in
  let minlength_ := bound field "minlength" "min" in
  let maxlength_ := bound field "maxlength" "max" in
  when (usable minlength_ && usable maxlength_)
    (r <- lift (rangelength (value field) field
                  (parseInt (text minlength_), parseInt (text maxlength_))) ;;
     setVerdict custom CkRange r
       (if truthyAttr (getAttribute field "max")
           && truthyAttr (getAttribute field "min")
        then replace "{1}" (text maxlength_)
               (replace "{0}" (text minlength_) (Messages.range msgs))
        else replace "{1}" (text maxlength_)
               (replace "{0}" (text minlength_) (Messages.rangelength msgs)))).

(** The [default] branch of the switch on the field type. *)
Definition lengthChecks (field : Field) : M unit :=
  minCheck field ;; maxCheck field ;; rangeCheck field.

(** The switch on the field type. *)
Definition typeCheck (field : Field) : M unit :=
  let custom := customErrorMessage field in
  let msgs := messages this in
  let fieldType := type_ field in
  let fieldValue := value field in
  if (fieldType =? "email")%string then
    setVerdict custom CkEmail (validEmail fieldValue) (Messages.email msgs)
  else if (fieldType =? "tel")%string then
    setVerdict custom CkPhone (validPhone fieldValue) (Messages.phone msgs)
  else if (fieldType =? "url")%string then
    setVerdict custom CkUrl (validUrl fieldValue) (Messages.url msgs)
  else if (fieldType =? "file")%string then
    setVerdict custom CkFile
      (match files field with Some n => (0 <? n)%nat | None => false end)
      (Messages.file msgs)
  else if (fieldType =? "date")%string then
    setVerdict custom CkDate (validDate field) (Messages.date msgs)
  else lengthChecks field.

(** [pattern !== ''], where [pattern] is [undefined] off an input. *)
Definition patternDiffers (field : Field) : bool :=
  match pattern field with
  | Some p => negb (p =? "")%string
  | None => true
  end.

Definition patternCheck (field : Field) : M unit :=
  r <- lift (validRegExp (text (pattern field)) (value field)) ;;
  setVerdict (customErrorMessage field) CkPattern r
    (Messages.regExp (messages this)).

Definition numText (n : option Z) : string :=
  match n with
  | Some z => toString z
  | None => "NaN"
  end.

(** [this.form?.querySelector(sel)] *)
Definition formQuerySelector (sel : string) : Result (option Field) :=
  match form this with
  | Some f => querySelector f sel
  | None => Ok None
  end.

(** The callback of [fieldSetting.rules.forEach]. *)
Definition applyRule (field : Field) (rule : Rule.t) : M unit :=
  let custom := customErrorMessage field in
  let msgs := messages this in
  let fieldValue := value field in
  v <- getValid ;;
  when v
    (match Rule.method rule with
     | MethodFunction f =>
         r <- lift (f fieldValue field) ;;
         setVerdict custom CkCustom r
           (orElse (Rule.errorMessage rule) (Messages.remote msgs))
     | MethodName m =>
         let min := Rule.min rule in
         let max := Rule.max rule in
         if (m =? "equalTo")%string then
           when (truthyAttr (Rule.field rule))
             (equalToField <-
                lift (formQuerySelector (text (Rule.field rule))) ;;
              match equalToField with
              | Some target =>
                  setVerdict custom CkEqualTo
                    (fieldValue =? value target)%string
                    (orElse (Rule.errorMessage rule) (Messages.equalTo msgs))
              | None => ret tt
              end)
         else if (m =? "minlength")%string then
           when (truthyNum min)
             (r <- lift (minlength fieldValue field min) ;;
              setVerdict custom CkRuleMin r
                (replace "{0}" (numText min)
                   (if truthyAttr (getAttribute field "min")
                    then orElse (Rule.errorMessage rule) (Messages.min msgs)
                    else orElse (Rule.errorMessage rule)
                           (Messages.minlength msgs))))
         else if (m =? "maxlength")%string then
           when (truthyNum max)
             (r <- lift (maxlength fieldValue field max) ;;
              setVerdict custom CkRuleMax r
                (replace "{0}" (numText max)
                   (if truthyAttr (getAttribute field "max")
                    then orElse (Rule.errorMessage rule) (Messages.max msgs)
                    else orElse (Rule.errorMessage rule)
                           (Messages.maxlength msgs))))
         else if (m =? "rangelength")%string then
           when (truthyNum min && truthyNum max)
             (r <- lift (rangelength fieldValue field (min, max)) ;;
              setVerdict custom CkRuleRange r
                (replace "{1}" (numText max)
                   (replace "{0}" (numText min)
                      (if truthyAttr (getAttribute field "max")
                          && truthyAttr (getAttribute field "min")
                       then orElse (Rule.errorMessage rule)
                              (Messages.range msgs)
                       else orElse (Rule.errorMessage rule)
                              (Messages.rangelength msgs)))))
         else ret tt
     | MethodNone => ret tt
     end).

(** [fieldSetting.name == fieldName] *)
Definition nameMatches (n : option string) (fieldName : string) : bool :=
  match n with
  | Some s => (s =? fieldName)%string
  | None => false
  end.

(** The callback of [this.settings.fields.forEach]. *)
Definition applyFieldSetting (field : Field) (fieldSetting : FieldSetting.t)
  : M unit :=
  match FieldSetting.rules fieldSetting with
  | Some rules =>
      when (nameMatches (FieldSetting.name fieldSetting) (name field))
        (forEach rules (applyRule field))
  | None => ret tt
  end.

(** [this.settings && this.settings.fields], as the list to walk. *)
Definition declaredFields : option (list FieldSetting.t) :=
  match settings this with
  | Some st => Settings.fields st
  | None => None
  end.

Definition declaredRules (field : Field) : M unit :=
  match declaredFields with
  | Some fs => forEach fs (applyFieldSetting field)
  | None => ret tt
  end.

(** Lines 141 to 307: the verdict before it is shown. *)
Definition fieldVerdict (field : Field) : M unit :=
  let fieldValue := value field in
  let nonEmpty := truthy fieldValue && negb (fieldValue =? "")%string in
  requiredCheck field ;;
  v <- getValid ;;
  when (v && nonEmpty)
    (typeCheck field ;;
     v1 <- getValid ;;
     when (v1 && nonEmpty && patternDiffers field) (patternCheck field) ;;
     v2 <- getValid ;;
     when v2 (declaredRules field)).

Definition errorHelpId (field : Field) : string :=
  let fieldId :=
    if isCheckboxOrRadio (type_ field) then name field else id field in
  ((if truthy fieldId then fieldId else name field) ++ "-error")%string.

(** [document.querySelector(sel)], as far as [validateField] depends on
    it before the error node is updated: a malformed selector throws. *)
Definition documentQuery (sel : string) : Result unit :=
  rbind (selector sel) (fun _ => Ok tt).

(** Line 309 looks the error node up with the identifier as it is, behind
    a number sign; the update of the node follows. *)
Definition validateField (field : Field) : Result bool :=
  match fieldVerdict field (initial field) with
  | (Ok _, s) =>
      rbind (documentQuery ("#" ++ errorHelpId field))
            (fun _ =>
               rbind (display (errorHelpId field) field (isValid s)
                        (errorMessage s))
                     (fun _ => Ok (isValid s)))
  | (Throw e, _) => Throw e
  end.

(** *** validateForm

    [visited] lists the fields handed to [validateField], with what each
    call returned. *)
Fixpoint visit (fs : list Field) (isValid : bool)
  (visited : list (Field * bool)) : Result (bool * list (Field * bool)) :=
  match fs with
  | [] => Ok (isValid, visited)
  | field :: rest =>
      rbind (validateField field)
            (fun isValidField =>
               visit rest (if negb isValidField then false else isValid)
                     (visited ++ [(field, isValidField)]))
  end.

Definition validateFormLog : Result (bool * list (Field * bool)) :=
  match fields this with
  | Some fs => visit fs true []
  | None => Ok (true, [])
  end.

Definition validateForm : Result bool :=
  rbind validateFormLog (fun r => Ok (fst r)).

End WithHost.

(** *** The constructor and loadMessages, on JavaScript values *)

Definition messageProps (m : Messages.t) : list (string * jsval) :=
    [("required", JStr (Messages.required m));
     ("remote", JStr (Messages.remote m));
     ("email", JStr (Messages.email m));
     ("url", JStr (Messages.url m));
     ("date", JStr (Messages.date m));
     ("number", JStr (Messages.number m));
     ("phone", JStr (Messages.phone m));
     ("file", JStr (Messages.file m));
     ("equalTo", JStr (Messages.equalTo m));
     ("maxlength", JStr (Messages.maxlength m));
     ("minlength", JStr (Messages.minlength m));
     ("rangelength", JStr (Messages.rangelength m));
     ("max", JStr (Messages.max m));
     ("min", JStr (Messages.min m));
     ("range", JStr (Messages.range m));
     ("regExp", JStr (Messages.regExp m))].

Definition messagesValue (m : Messages.t) : jsval :=
  JObj false (messageProps m).

(** The names of the sixteen catalog entries. *)
Definition canonicalKeys : list string :=
  ["required"; "remote"; "email"; "url"; "date"; "number"; "phone"; "file";
   "equalTo"; "maxlength"; "minlength"; "rangelength"; "max"; "min"; "range";
   "regExp"].

Definition defaultSettings (messages : jsval) : jsval :=
  JObj false
    [("ignore", JNull);
     ("fields", JNull);
     ("autoValidate", JBool true);
     ("errorPlacement", JNull);
     ("errorElement", JStr "p");
     ("errorClass", JStr "error");
     ("errorFieldClass", JNull);
     ("validFormClass", JStr "was-validated");
     ("submitHandler", JNull);
     ("messages", messages)].

(** [v.key]: reading a property of [undefined] or [null] throws. *)
Definition member (v : jsval) (key : string) : Result jsval :=
  match v with
  | JUndefined | JNull => Throw TypeError
  | JObj _ props => Ok (get props key)
  | _ => Ok JUndefined
  end.

Definition truthyValue (v : jsval) : bool :=
  match v with
  | JUndefined | JNull => false
  | JBool b => b
  | JNum n => negb (n =? 0)
  | JStr s => truthy s
  | JFun _ | JObj _ _ => true
  end.

(** [this.settings] and [this.messages] of an instance. *)
Record Members : Type := {
  settingsValue : jsval;
  messagesNow : jsval
}.

(** The constructor, for a form that was found ([formFound]) or not; an
    omitted [settings] argument is [JUndefined].  The listeners that [init]
    attaches are not modelled. *)
Definition constructor (formFound : bool) (settings : jsval)
  : Result Members :=
  let messages := messagesValue defaultMessages in
  if formFound then
    let settings' := deepMerge (defaultSettings messages) settings in
    rbind (member settings' "messages")
          (fun m =>
             Ok {| settingsValue := settings';
                   messagesNow := deepMerge m messages |})
  else Ok {| settingsValue := JUndefined; messagesNow := messages |}.

(** The callback that [loadMessages] runs on the fetched [data]; what it
    throws is caught and logged, the messages staying as they are. *)
Definition loadMessages (this : Members) (data : jsval) : Members :=
  match member data "messages" with
  | Ok dataMessages =>
      if truthyValue (settingsValue this) && truthyValue dataMessages then
        {| settingsValue := settingsValue this;
           messagesNow := deepMerge dataMessages (messagesNow this) |}
      else this
  | Throw _ => this
  end.

(** A catalog entry read under its declared type [string]. *)
Definition entry (messages : jsval) (key : string) : string :=
  match messages with
  | JObj _ props =>
      match get props key with
      | JStr s => s
      | _ => ""
      end
  | _ => ""
  end.

(** [this.messages] as the evaluator reads it. *)
Definition messagesOf (v : jsval) : Messages.t := {|
  Messages.required := entry v "required";
  Messages.remote := entry v "remote";
  Messages.email := entry v "email";
  Messages.url := entry v "url";
  Messages.date := entry v "date";
  Messages.number := entry v "number";
  Messages.phone := entry v "phone";
  Messages.file := entry v "file";
  Messages.equalTo := entry v "equalTo";
  Messages.maxlength := entry v "maxlength";
  Messages.minlength := entry v "minlength";
  Messages.rangelength := entry v "rangelength";
  Messages.max := entry v "max";
  Messages.min := entry v "min";
  Messages.range := entry v "range";
  Messages.regExp := entry v "regExp"
|}.

End FormValidator.

(** ** A small host, for running the model

    - [Date.parse] reads the date-only form YYYY-MM-DD, which ECMAScript
      takes as midnight UTC, and nothing else.
    - [RegExp] knows patterns without metacharacters, which match the values
      that contain them, and refuses the others.
    - The selector engine knows an identifier selector, the attribute
      selector that [findByName] writes and the one that
      [validateCheckboxRadio] writes, and refuses the others.
    - Showing a verdict always succeeds. *)

Module Demo.

Import FormValidator.

Definition digitsValue (s : string) : option Z :=
  if IsHelper.validDigits s then parseInt s else None.

Definition isLeap (y : Z) : bool :=
  ((y mod 4 =? 0) && negb (y mod 100 =? 0)) || (y mod 400 =? 0).

Definition daysInMonth (y m : Z) : Z :=
  if m =? 2 then (if isLeap y then 29 else 28)
  else if (m =? 4) || (m =? 6) || (m =? 9) || (m =? 11) then 30
  else 31.

(** Days from 1970-01-01 to the civil date. *)
Definition daysFromCivil (y m d : Z) : Z :=
  let y' := if m <=? 2 then y - 1 else y in
  let era := y' / 400 in
  let yoe := y' - era * 400 in
  let doy := (153 * (if 2 <? m then m - 3 else m + 9) + 2) / 5 + d - 1 in
  let doe := yoe * 365 + yoe / 4 - yoe / 100 + doy in
  era * 146097 + doe - 719468.

Definition isoDate (s : string) : option Z :=
  if (String.length s =? 10)%nat
     && (substring 4 1 s =? "-")%string && (substring 7 1 s =? "-")%string
  then
    match digitsValue (substring 0 4 s),
          digitsValue (substring 5 2 s),
          digitsValue (substring 8 2 s) with
    | Some y, Some m, Some d =>
        if (1 <=? m) && (m <=? 12) && (1 <=? d) && (d <=? daysInMonth y m)
        then Some (daysFromCivil y m d * 86400000)
        else None
    | _, _, _ => None
    end
  else None.

Definition literalPattern (pattern value : string) : Result bool :=
  if existsb (fun c => oneOf "\^$.|?*+()[]{}" c) (list_ascii_of_string pattern)
  then Throw SyntaxError
  else Ok (includes pattern value).

Fixpoint unescape (s : string) : string :=
  match s with
  | String "\" (String c rest) => String c (unescape rest)
  | String c rest => String c (unescape rest)
  | EmptyString => EmptyString
  end.

(** [s] without its last [n] characters. *)
Definition dropLast (n : nat) (s : string) : string :=
  substring 0 (String.length s - n) s.

Definition endsWith (suffix s : string) : bool :=
  (substring (String.length s - String.length suffix)
             (String.length suffix) s =? suffix)%string.

Definition selectors (sel : string) : Result (Field -> bool) :=
  let byInput := ("input[name=" ++ dquote)%string in
  let closeInput := (dquote ++ "]")%string in
  if prefix "#" sel then
    Ok (fun e => (id e =? drop 1 sel)%string)
  else if prefix "[name='" sel && endsWith "']" sel then
    let n := unescape (dropLast 2 (drop 7 sel)) in
    Ok (fun e => (name e =? n)%string)
  else if prefix byInput sel && endsWith closeInput sel then
    let n := dropLast 2 (drop 12 sel) in
    Ok (fun e => (toLowerCase (nodeName e) =? "input")%string
                 && (name e =? n)%string)
  else Throw SyntaxError.

#[export] Instance host : Host := {|
  Date_parse := isoDate;
  RegExp_test := literalPattern;
  selector := selectors;
  display := fun _ _ _ _ => Ok tt
|}.

(** A text input. *)
Definition input (id_ name_ type__ value_ : string)
  (attrs : list (string * string)) : Field := {|
  nodeName := "INPUT";
  id := id_;
  name := name_;
  type_ := type__;
  pattern := Some (text (getAttribute
                           {| nodeName := "INPUT"; id := id_; name := name_;
                              type_ := type__; pattern := None;
                              value := value_; attributes := attrs;
                              files := None; checked := false;
                              options := [] |} "pattern"));
  value := value_;
  attributes := attrs;
  files := None;
  checked := false;
  options := []
|}.

(** A validator bound to a form, with the default messages. *)
Definition validator (els : list Field) (declared : option (list FieldSetting.t))
  : Validator := {|
  form := Some {| elements := els |};
  fields := Some els;
  settings := Some {| Settings.ignore := None; Settings.fields := declared |};
  messages := defaultMessages
|}.

(** The verdict of [validateField] before it is shown. *)
Definition run (this : Validator) (field : Field) : Result unit * VState :=
  fieldVerdict this field (initial field).

(** A password of two characters where five to ten are asked for. *)
Definition shortPassword : Field :=
  input "pw" "pw" "password" "ab" [("minlength", "5"); ("maxlength", "10")].

(** The same with a [min] attribute besides [minlength], and no maximum. *)
Definition twoMinima : Field :=
  input "pw" "pw" "password" "ab" [("minlength", "5"); ("min", "3")].

(** An optional field left empty, with a length bound and a pattern. *)
Definition emptyNick : Field :=
  input "nick" "nick" "text" "" [("minlength", "3"); ("pattern", "x")].

(** A custom rule whose predicate throws whenever it is called. *)
Definition throwingRule : Rule.t := {|
  Rule.method := MethodFunction (fun _ _ => Throw (UserError "called"));
  Rule.field := None;
  Rule.min := None;
  Rule.max := None;
  Rule.errorMessage := None
|}.

(** A rule asking for the value of the element with identifier other. *)
Definition sameAsOther : Rule.t := {|
  Rule.method := MethodName "equalTo";
  Rule.field := Some "#other";
  Rule.min := None;
  Rule.max := None;
  Rule.errorMessage := None
|}.

Definition declare (name : string) (rules : list Rule.t) : FieldSetting.t :=
  {| FieldSetting.name := Some name; FieldSetting.rules := Some rules |}.

(** A field with a value, in a form that has no element with identifier
    other. *)
Definition confirmation : Field := input "again" "again" "text" "xyz" [].

(** A date field holding the first day of 1970. *)
Definition epochDay : Field := input "d" "d" "date" "1970-01-01" [].

(** A required field left empty, an address that is none, and a field
    of six characters where five are asked for. *)
Definition requiredEmpty : Field :=
  input "who" "who" "text" "" [("required", "")].
Definition badEmail : Field := input "mail" "mail" "email" "not-an-email" [].
Definition goodEmail : Field := input "mail" "mail" "email" "a@b.com" [].
Definition longEnough : Field :=
  input "pw" "pw" "password" "abcdef" [("minlength", "5")].
Definition tooShort : Field :=
  input "pw" "pw" "password" "ab" [("minlength", "5")].

(** Values of five and of eight characters between a [min] of 3 and a
    [max] of 7. *)
Definition withinRange : Field :=
  input "n" "n" "text" "abcde" [("min", "3"); ("max", "7")].
Definition beyondRange : Field :=
  input "n" "n" "text" "abcdefgh" [("min", "3"); ("max", "7")].

(** The element with identifier other, holding [v]. *)
Definition other (v : string) : Field := input "other" "first" "text" v [].

(** A member of the radio group plan. *)
Definition plan (id_ : string) (isChecked : bool) : Field := {|
  nodeName := "INPUT";
  id := id_;
  name := "plan";
  type_ := "radio";
  pattern := Some "";
  value := id_;
  attributes := [("required", "")];
  files := None;
  checked := isChecked;
  options := []
|}.

(** Settings that replace one message, and a fetched file that replaces
    it again. *)
Definition frenchSettings : Utils.jsval :=
  Utils.JObj false
    [("messages",
      Utils.JObj false [("required", Utils.JStr "Ce champ est obligatoire.")])].

Definition fetchedMessages : Utils.jsval :=
  Utils.JObj false
    [("messages",
      Utils.JObj false [("required", Utils.JStr "Champ requis.")])].

End Demo.

(** ** The vocabulary of the statements *)

Module Spec.

Import Regex IsHelper FormValidator.

(** The text after the first at-sign: the domain part of an address. *)
Fixpoint afterAt (s : string) : string :=
  match s with
  | EmptyString => EmptyString
  | String c rest => if Ascii.eqb c "@" then rest else afterAt rest
  end.

(** Labels, each behind a dot, one after the other. *)
Fixpoint dotted (labels : list string) : string :=
  match labels with
  | [] => ""
  | l :: rest => ("." ++ l ++ dotted rest)%string
  end.

Definition isLabel (l : string) : bool := test emailLabel l.

(** No name occurs twice. *)
Fixpoint distinct (l : list string) : bool :=
  match l with
  | [] => true
  | k :: rest => negb (Utils.mem k rest) && distinct rest
  end.

(** A value in which every object has each of its properties once, as
    every JavaScript object has. *)
Fixpoint wellFormed (v : Utils.jsval) : bool :=
  match v with
  | Utils.JObj _ props =>
      distinct (Utils.keys props)
      && (fix all (ps : list (string * Utils.jsval)) : bool :=
            match ps with
            | [] => true
            | (_, x) :: rest => wellFormed x && all rest
            end) props
  | _ => true
  end.

(** The validator with other declared rules, all else being equal. *)
Definition withDeclared (this : Validator) (declared : list FieldSetting.t)
  : Validator := {|
  form := form this;
  fields := fields this;
  settings :=
    Some {| Settings.ignore :=
              match settings this with
              | Some st => Settings.ignore st
              | None => None
              end;
            Settings.fields := Some declared |};
  messages := messages this
|}.

(** The checks that the length block makes without looking at [isValid]. *)
Definition lengthBlock (c : Check) : bool :=
  match c with
  | CkMin | CkMax | CkRange => true
  | _ => false
  end.

(** The two checks that can follow a failure. *)
Definition late (e : Event) : Prop := check e = CkMax \/ check e = CkRange.

(** C1 as the claim words it: after a failed check the message stays what
    it was. *)
Definition keepsMessage (tr : list Event) : Prop :=
  forall l1 e l2,
    tr = (l1 ++ e :: l2)%list -> passed e = false ->
    Forall (fun e' => message e' = message e) l2.

(** After a failed check, only the maximum and the range check are made. *)
Definition settled (tr : list Event) : Prop :=
  forall l1 e l2,
    tr = (l1 ++ e :: l2)%list -> passed e = false -> Forall late l2.

(** The bound in force came from the attribute [min] (resp. [max]): the
    longer-named attribute is absent or empty. *)
Definition sourcedFromShort (field : Field) (long short : string) : bool :=
  negb (truthyAttr (getAttribute field long))
  && truthyAttr (getAttribute field short).

(** C6 as the claim words it: the variant follows the source of the bound. *)
Definition minMessageBySource (this : Validator) (field : Field) : string :=
  let b := text (bound field "minlength" "min") in
  if sourcedFromShort field "minlength" "min"
  then replace "{0}" b (Messages.min (messages this))
  else replace "{0}" b (Messages.minlength (messages this)).

(** What the code does: the variant follows the presence of a non-empty
    [min] (resp. [max]) attribute. *)
Definition minMessage (this : Validator) (field : Field) : string :=
  let b := text (bound field "minlength" "min") in
  if truthyAttr (getAttribute field "min")
  then replace "{0}" b (Messages.min (messages this))
  else replace "{0}" b (Messages.minlength (messages this)).

Definition maxMessage (this : Validator) (field : Field) : string :=
  let b := text (bound field "maxlength" "max") in
  if truthyAttr (getAttribute field "max")
  then replace "{0}" b (Messages.max (messages this))
  else replace "{0}" b (Messages.maxlength (messages this)).

(** The state after one assignment of a verdict. *)
Definition after (field : Field) (c : Check) (r : bool) (msg : string)
  (s : VState) : VState :=
  snd (setVerdict (customErrorMessage field) c r msg s).

Definition minBound (field : Field) : option string :=
  bound field "minlength" "min".
Definition maxBound (field : Field) : option string :=
  bound field "maxlength" "max".

Definition rangeMessage (this : Validator) (field : Field) : string :=
  if truthyAttr (getAttribute field "max")
     && truthyAttr (getAttribute field "min")
  then replace "{1}" (text (maxBound field))
         (replace "{0}" (text (minBound field))
            (Messages.range (messages this)))
  else replace "{1}" (text (maxBound field))
         (replace "{0}" (text (minBound field))
            (Messages.rangelength (messages this))).

(** The three steps of the length block on a field of length [len]. *)
Definition afterMin (this : Validator) (field : Field) (len : option Z)
  (s : VState) : VState :=
  if usable (minBound field)
  then after field CkMin (num_ge len (parseInt (text (minBound field))))
         (minMessage this field) s
  else s.

Definition afterMax (this : Validator) (field : Field) (len : option Z)
  (s : VState) : VState :=
  if usable (maxBound field)
  then after field CkMax (num_le len (parseInt (text (maxBound field))))
         (maxMessage this field) s
  else s.

Definition afterRange (this : Validator) (field : Field) (len : option Z)
  (s : VState) : VState :=
  if usable (minBound field) && usable (maxBound field)
  then after field CkRange
         (num_ge len (parseInt (text (minBound field)))
          && num_le len (parseInt (text (maxBound field))))
         (rangeMessage this field) s
  else s.

(** A property of the state that a computation keeps, whether it returns
    or throws. *)
Definition preserves {A} (I : VState -> Prop) (m : M A) : Prop :=
  forall s, I s -> I (snd (m s)).

(** The same, from the states in which [isValid] is [v]. *)
Definition preservesAt {A} (v : bool) (I : VState -> Prop) (m : M A) : Prop :=
  forall s, I s -> isValid s = v -> I (snd (m s)).

(** [settled], by recursion on the trace. *)
Fixpoint settledRec (tr : list Event) : Prop :=
  match tr with
  | [] => True
  | e :: rest => (passed e = false -> Forall late rest) /\ settledRec rest
  end.

(** Between two steps of the pipeline: the trace is settled, and while
    [isValid] holds no check has failed. *)
Definition orderly (s : VState) : Prop :=
  settled (trace s)
  /\ (isValid s = true -> Forall (fun e => passed e = true) (trace s)).

(** Between two steps of the pipeline: a failed minimum (maximum) check
    has left [isValid] false and its message is the one of the [min]
    ([max]) attribute rule; with no bound on the other side, that message
    is the one in force. *)
Definition lengthVerdicts (this : Validator) (field : Field) (s : VState)
  : Prop :=
  forall e, In e (trace s) -> passed e = false ->
    (check e = CkMin ->
       isValid s = false
       /\ message e = minMessage this field
       /\ (usable (maxBound field) = false -> errorMessage s = message e))
    /\ (check e = CkMax ->
         isValid s = false
         /\ message e = maxMessage this field
         /\ (usable (minBound field) = false -> errorMessage s = message e)).

(** The fields that [validateForm] walks. *)
Definition tracked (this : Validator) : list Field :=
  match fields this with
  | Some fs => fs
  | None => []
  end.

End Spec.

(** ** isHelper.ts: the predicate that the class does not call *)

Module IsHelperRest.

Import Regex IsHelper.

(** An optional integer part, which is digits behind an optional minus or
    groups of three digits separated by commas behind one to three digits
    and an optional minus, then an optional fraction of a dot and digits. *)
Definition numberRe : re :=
  Cat (opt (Alt (Cat (opt (chr "-")) (plus digit))
                (Cat (opt (chr "-"))
                     (Cat (rep 1 3 digit)
                          (plus (Cat (chr ",") (exactly 3 digit)))))))
      (opt (Cat dot (plus digit))).

Definition validNumber (value : string) : bool := test numberRe value.

End IsHelperRest.

(** ** vanilla-form-validator.ts: the fields that [init] tracks *)

Module Binding.

Import FormValidator.

(** An element with its place in document order, which tells two
    elements apart as their identity does. *)
Definition Node : Type := (nat * Field)%type.

Definition nodes (form : Form) : list Node :=
  combine (seq 0 (List.length (elements form))) (elements form).

Definition querySelectorAllNodes `{Host} (form : Form) (sel : string)
  : Result (list Node) :=
  rbind (selector sel) (fun p => Ok (filter (fun n => p (snd n)) (nodes form))).

(** [l.includes(element)] *)
Definition includes (l : list Node) (element : Node) : bool :=
  existsb (fun m => (fst m =? fst element)%nat) l.

(** The fields that [init] stores in [this.fields], for the settings'
    [ignore] ([None] also when there are no settings).  The attribute and
    the listeners that [init] sets on the document are not modelled. *)
Definition init `{Host} (form : Form) (ignore : option string)
  : Result (list Node) :=
  rbind (querySelectorAllNodes form "input[name], textarea, select")
        (fun fields =>
           if truthyAttr ignore then
             rbind (querySelectorAllNodes form (text ignore))
                   (fun ignoreFields =>
                      Ok (filter (fun element =>
                                    negb (includes ignoreFields element))
                                 fields))
           else Ok fields).

End Binding.

(** ** The vocabulary of the further statements *)

Module Vocabulary.

Import Regex IsHelper Utils FormValidator Spec.

(** Every character of the string is in the class. *)
Fixpoint allOf (P : ascii -> bool) (s : string) : bool :=
  match s with
  | EmptyString => true
  | String c rest => P c && allOf P rest
  end.

(** The class holds of each of the 256 characters. *)
Definition everyChar (f : ascii -> bool) : bool :=
  forallb (fun n => f (ascii_of_nat n)) (seq 0 256).

(** Every character class of the expression lies within [P]; the classes
    of a look-ahead, which consumes nothing, do not count. *)
Fixpoint classesWithin (P : ascii -> bool) (r : re) : bool :=
  match r with
  | Void | Eps => true
  | Chr p => everyChar (fun c => implb (p c) (P c))
  | Cat a b | Alt a b => classesWithin P a && classesWithin P b
  | Star a => classesWithin P a
  | NotAhead _ a => classesWithin P a
  end.

(** The last character of a string. *)
Fixpoint lastChar (s : string) : option ascii :=
  match s with
  | EmptyString => None
  | String c EmptyString => Some c
  | String _ rest => lastChar rest
  end.

Definition firstChar (s : string) : option ascii :=
  match s with
  | EmptyString => None
  | String c _ => Some c
  end.

Definition holds (P : ascii -> bool) (c : option ascii) : bool :=
  match c with
  | Some x => P x
  | None => false
  end.

(** A value whose arrays hold elements only: the values that [clone]
    copies in full. *)
Fixpoint plain (v : jsval) : bool :=
  match v with
  | JObj isArr props =>
      (fix all (ps : list (string * jsval)) : bool :=
         match ps with
         | [] => true
         | (k, x) :: rest => (negb isArr || isIndex k) && plain x && all rest
         end) props
  | _ => true
  end.

(** [v.k1.k2...], read through objects: below a value that is no object
    nothing is read. *)
Fixpoint getPath (v : jsval) (p : list string) : jsval :=
  match p with
  | [] => v
  | k :: rest =>
      match v with
      | JObj _ props => getPath (get props k) rest
      | _ => JUndefined
      end
  end.

(** Keys that are assigned as properties: an assignment to the key
    __proto__ sets the prototype of the object instead, which the
    property lists do not model. *)
Definition ordinary (ks : list string) : bool :=
  forallb (fun k => negb (k =? "__proto__")%string) ks.

(** A value that an override sets outright: null, a boolean, a number, a
    string or a function. *)
Definition sets (v : jsval) : bool :=
  match v with
  | JUndefined | JObj _ _ => false
  | _ => true
  end.



(** The five field types that have a check of their own. *)
Definition typed (fieldType : string) : bool :=
  (fieldType =? "email")%string || (fieldType =? "tel")%string
  || (fieldType =? "url")%string || (fieldType =? "file")%string
  || (fieldType =? "date")%string.

(** A declared rule that asks for nothing: no method, a method name that
    the switch does not know, or a known one whose parameter is falsy
    (no selector, no bound, a bound of 0). *)
Definition inert (rule : Rule.t) : bool :=
  match Rule.method rule with
  | MethodFunction _ => false
  | MethodNone => true
  | MethodName m =>
      if (m =? "equalTo")%string then negb (truthyAttr (Rule.field rule))
      else if (m =? "minlength")%string then negb (truthyNum (Rule.min rule))
      else if (m =? "maxlength")%string then negb (truthyNum (Rule.max rule))
      else if (m =? "rangelength")%string
           then negb (truthyNum (Rule.min rule) && truthyNum (Rule.max rule))
      else true
  end.

(** The custom message is the message in force, and was after each
    check. *)
Definition customKept (field : Field) (s : VState) : Prop :=
  errorMessage s = customErrorMessage field
  /\ Forall (fun e => message e = customErrorMessage field) (trace s).

(** The verdict is the outcome of the last check; before any check, and
    as long as every check passed, the message is the initial one. *)
Definition lastCheck (field : Field) (s : VState) : Prop :=
  (trace s = [] -> isValid s = true)
  /\ (forall l e, trace s = (l ++ [e])%list ->
                  isValid s = passed e /\ errorMessage s = message e)
  /\ (Forall (fun e => passed e = true) (trace s) ->
      errorMessage s = errorMessage (initial field)).

(** No check of the length block was made. *)
Definition noLengthCheck (s : VState) : Prop :=
  Forall (fun e => lengthBlock (check e) = false) (trace s).

(** The measured length is within the bounds that the attributes of the
    field give, where they give usable ones. *)
Definition withinBounds (field : Field) (len : option Z) : bool :=
  (negb (usable (minBound field))
   || num_ge len (parseInt (text (minBound field))))
  && (negb (usable (maxBound field))
      || num_le len (parseInt (text (maxBound field)))).

Definition phoneChar (c : ascii) : bool :=
  isSpace c || isDigit c || Ascii.eqb c "+".

Definition numberChar (c : ascii) : bool := isDigit c || oneOf "-,." c.

End Vocabulary.

(** ** Further fields and rules, for running the model *)

Module Samples.

Import Utils FormValidator Vocabulary.

(** An address that is none, in a field with a message of its own. *)
Definition ownMessage : Field :=
  Demo.input "mail" "mail" "email" "not-an-email"
    [("data-error-message", "Check the address.")].

(** An address of five characters where ten are asked for. *)
Definition shortAddress : Field :=
  Demo.input "mail" "mail" "email" "a@b.c" [("minlength", "10")].

(** A range of 0 to 5 characters, declared for a field of 8. *)
Definition zeroToFive : Rule.t := {|
  Rule.method := MethodName "rangelength";
  Rule.field := None;
  Rule.min := Some 0;
  Rule.max := Some 5;
  Rule.errorMessage := None
|}.

Definition eightLetters : Field :=
  Demo.input "code" "code" "text" "abcdefgh" [].

(** A number input holding 7 where at least 10 is asked for. *)
Definition smallNumber : Field :=
  Demo.input "age" "age" "number" "7" [("min", "10")].

(** A host that knows the selector of [init] and the class selector
    skip, beside what the small host knows. *)
Definition selectors (sel : string) : Result (Field -> bool) :=
  if (sel =? "input[name], textarea, select")%string then
    Ok (fun e =>
          let tag := toLowerCase (nodeName e) in
          ((tag =? "input")%string && hasAttribute e "name")
          || (tag =? "textarea")%string || (tag =? "select")%string)
  else if (sel =? ".skip")%string then
    Ok (fun e => (text (getAttribute e "class") =? "skip")%string)
  else Demo.selectors sel.

Definition host : Host := {|
  Date_parse := Demo.isoDate;
  RegExp_test := Demo.literalPattern;
  selector := selectors;
  display := fun _ _ _ _ => Ok tt
|}.

(** A field that is not required and left empty, whose identifier
    starts with a digit. *)
Definition digitId : Field := Demo.input "1a" "first" "text" "" [].

(** The first character of a CSS identifier, and the characters behind
    it (escapes apart). *)
Definition identStart (c : ascii) : bool :=
  isLower c || isUpper c || Ascii.eqb c "_" || (128 <=? code c)%N.

Definition identChar (c : ascii) : bool :=
  identStart c || isDigit c || Ascii.eqb c "-".

Definition isIdent (s : string) : bool :=
  match s with
  | String "-" (String c rest) =>
      (identStart c || Ascii.eqb c "-") && allOf identChar rest
  | String c rest => identStart c && allOf identChar rest
  | EmptyString => false
  end.

(** A host whose engine reads an identifier selector as CSS has it: what
    follows the number sign is an identifier, which does not start with
    a digit. *)
Definition strictSelectors (sel : string) : Result (Field -> bool) :=
  if prefix "#" sel then
    if isIdent (drop 1 sel) then Ok (fun e => (id e =? drop 1 sel)%string)
    else Throw SyntaxError
  else Demo.selectors sel.

Definition strict : Host := {|
  Date_parse := Demo.isoDate;
  RegExp_test := Demo.literalPattern;
  selector := strictSelectors;
  display := fun _ _ _ _ => Ok tt
|}.

(** An input element with a name attribute. *)
Definition named (id_ name_ : string) (attrs : list (string * string))
  : Field :=
  Demo.input id_ name_ "text" "" (("name", name_) :: attrs).

(** Two named inputs, the second of the class skip, and an input
    without a name. *)
Definition contact : Form := {|
  elements := [named "a" "first" [];
               named "b" "second" [("class", "skip")];
               Demo.input "c" "" "text" "" []]
|}.

(** A radio group of which no member is checked. *)
Definition noPlan : list Field := [Demo.plan "free" false; Demo.plan "paid" false].

End Samples.

(* ================================================================== *)
(** * Part II: properties *)
(* ================================================================== *)

(** ** The matcher decides the language *)

Module RegexFacts.

Import Regex.

Lemma append_nil_r (s : string) : (s ++ "")%string = s.
Proof. induction s as [|c s IH]; simpl; [reflexivity | now rewrite IH]. Qed.

Lemma append_assoc (s1 s2 s3 : string) :
  ((s1 ++ s2) ++ s3)%string = (s1 ++ (s2 ++ s3))%string.
Proof. induction s1 as [|c s1 IH]; simpl; [reflexivity | now rewrite IH]. Qed.

Lemma append_eq_nil (s1 s2 : string) :
  (s1 ++ s2)%string = "" -> s1 = "" /\ s2 = "".
Proof. destruct s1; simpl; intros E; [now split | discriminate]. Qed.

Lemma nullable_lang (r : re) : nullable r = true <-> lang r "".
Proof.
  induction r as [| |p|a IHa b IHb|a IHa b IHb|a IHa|la IHla a IHa]; simpl.
  - split; [discriminate | tauto].
  - split; reflexivity.
  - split; [discriminate | intros (c & E & _); discriminate].
  - rewrite andb_true_iff, IHa, IHb. split.
    + intros [Ha Hb]. now exists "", "".
    + intros (s1 & s2 & E & Ha & Hb). symmetry in E.
      apply append_eq_nil in E as [-> ->]. now split.
  - rewrite orb_true_iff, IHa, IHb. tauto.
  - split; [intros _; constructor | reflexivity].
  - rewrite andb_true_iff, negb_true_iff, IHa. split.
    + intros [Hla Ha]. split; [assumption|].
      intros p q E Hp. symmetry in E. apply append_eq_nil in E as [-> _].
      apply IHla in Hp. congruence.
    + intros [Ha Hno]. split; [|assumption].
      destruct (nullable la) eqn:N; [|reflexivity].
      exfalso. apply (Hno "" ""); [reflexivity | now apply IHla].
Qed.

Lemma cat_lang (a b : re) (s : string) : lang (cat a b) s <-> lang (Cat a b) s.
Proof.
  assert (V : forall x, lang (Cat x Void) s <-> False).
  { intros x. simpl. split; [intros (? & ? & _ & _ & []) | tauto]. }
  assert (E : lang b s <-> lang (Cat Eps b) s).
  { simpl. split.
    - intros Hb. now exists "", s.
    - intros (s1 & s2 & -> & -> & Hb). exact Hb. }
  destruct a; simpl cat;
    try (destruct b; first [reflexivity | now rewrite V | exact E]).
  simpl. split; [tauto | intros (? & ? & _ & [] & _)].
Qed.

Lemma alt_lang (a b : re) (s : string) : lang (alt a b) s <-> lang (Alt a b) s.
Proof.
  destruct a; simpl alt; try (destruct b; simpl; tauto); simpl; tauto.
Qed.

Lemma star_cons (L : string -> Prop) (c : ascii) (s : string) :
  star_lang L (String c s) ->
  exists s1 s2, s = (s1 ++ s2)%string /\ L (String c s1) /\ star_lang L s2.
Proof.
  intros H. remember (String c s) as w eqn:E. revert c s E.
  induction H as [|s1 s2 H1 H2 IH]; intros c s E; [discriminate|].
  destruct s1 as [|c1 s1]; simpl in E.
  - now apply IH.
  - injection E as -> <-. now exists s1, s2.
Qed.

Lemma deriv_lang (c : ascii) (r : re) :
  forall s, lang (deriv c r) s <-> lang r (String c s).
Proof.
  induction r as [| |p|a IHa b IHb|a IHa b IHb|a IHa|la IHla a IHa];
    intros s; simpl deriv.
  - simpl. tauto.
  - simpl. split; [tauto | discriminate].
  - destruct (p c) eqn:P; simpl.
    + split.
      * intros ->. now exists c.
      * intros (x & E & _). now injection E.
    + split; [tauto|]. intros (x & E & Px). injection E as <- _. congruence.
  - assert (L : lang (Cat (deriv c a) b) s <->
                exists s1 s2, s = (s1 ++ s2)%string
                              /\ lang a (String c s1) /\ lang b s2).
    { simpl. split; intros (s1 & s2 & E & Ha & Hb); exists s1, s2;
        (split; [exact E | split; [now apply IHa | exact Hb]]). }
    destruct (nullable a) eqn:N.
    + rewrite alt_lang. simpl lang at 1. rewrite cat_lang, L, IHb. split.
      * intros [(s1 & s2 & -> & Ha & Hb) | Hb].
        -- now exists (String c s1), s2.
        -- exists "", (String c s). repeat split; [|exact Hb].
           now apply nullable_lang.
      * intros (s1 & s2 & E & Ha & Hb). destruct s1 as [|c1 s1]; simpl in E.
        -- right. now rewrite E.
        -- injection E as <- ->. left. now exists s1, s2.
    + rewrite cat_lang, L. split.
      * intros (s1 & s2 & -> & Ha & Hb). now exists (String c s1), s2.
      * intros (s1 & s2 & E & Ha & Hb). destruct s1 as [|c1 s1]; simpl in E.
        -- apply nullable_lang in Ha. congruence.
        -- injection E as <- ->. now exists s1, s2.
  - rewrite alt_lang. simpl. now rewrite IHa, IHb.
  - rewrite cat_lang. simpl. split.
    + intros (s1 & s2 & -> & Ha & Hs).
      change (String c (s1 ++ s2)) with (String c s1 ++ s2)%string.
      apply star_app; [now apply IHa | exact Hs].
    + intros Hs. apply star_cons in Hs as (s1 & s2 & -> & Ha & Hs).
      exists s1, s2. repeat split; [now apply IHa | exact Hs].
  - destruct (nullable la) eqn:N; simpl.
    + split; [tauto|]. intros [_ Hno].
      apply (Hno "" (String c s)); [reflexivity | now apply nullable_lang].
    + rewrite IHa. split; intros [Ha Hno]; (split; [exact Ha|]).
      * intros p q E Hp. destruct p as [|c1 p]; simpl in E.
        -- apply nullable_lang in Hp. congruence.
        -- injection E as <- ->. apply (Hno p q); [reflexivity | now apply IHla].
      * intros p q -> Hp. apply (Hno (String c p) q); [reflexivity|].
        now apply IHla.
Qed.

Lemma test_lang (r : re) (s : string) : test r s = true <-> lang r s.
Proof.
  revert r. induction s as [|c s IH]; intros r; simpl.
  - apply nullable_lang.
  - rewrite IH. apply deriv_lang.
Qed.

End RegexFacts.

(** ** isHelper.ts: validEmail *)

Module IsHelperFacts.

Import Regex RegexFacts IsHelper Spec.

Lemma lang_chr (c : ascii) (s : string) : lang (chr c) s -> s = String c "".
Proof.
  intros (x & -> & E). apply Ascii.eqb_eq in E. now subst.
Qed.

Lemma dotted_labels (s : string) :
  star_lang (lang (Cat (chr ".") emailLabel)) s ->
  exists rest, s = dotted rest /\ forallb isLabel rest = true.
Proof.
  induction 1 as [|s1 s2 H1 _ (rest & -> & Hrest)].
  - now exists [].
  - destruct H1 as (x & l & -> & Hx & Hl). apply lang_chr in Hx as ->.
    exists (l :: rest). simpl. split; [reflexivity|].
    apply andb_true_iff. split; [now apply test_lang | exact Hrest].
Qed.

(** C5, first part of the claim and what holds of its last part: the
    library accepts a@b.com and rejects not-an-email; an accepted value is a
    non-empty local part, an at-sign and a domain made of one label followed
    by any number of dot-prefixed labels, none included. *)
Theorem validEmail_shape :
  validEmail "a@b.com" = true
  /\ validEmail "not-an-email" = false
  /\ forall v, validEmail v = true ->
       exists local first rest,
         v = (local ++ "@" ++ first ++ dotted rest)%string
         /\ local <> ""
         /\ isLabel first = true
         /\ forallb isLabel rest = true.
Proof.
  split; [reflexivity|]. split; [reflexivity|].
  intros v Hv. apply test_lang in Hv.
  destruct Hv as (local & s2 & -> & Hlocal & s3 & d & -> & Hat & Hd).
  apply lang_chr in Hat as ->.
  destruct Hd as (first & tl & -> & Hfirst & Htl).
  apply dotted_labels in Htl as (rest & -> & Hrest).
  exists local, first, rest. repeat split.
  - destruct Hlocal as (x & y & -> & (c & -> & _) & _). discriminate.
  - now apply test_lang.
  - exact Hrest.
Qed.

Lemma validEmail_shape_witness :
  exists local first rest,
    "a@b" = (local ++ "@" ++ first ++ dotted rest)%string
    /\ local <> ""
    /\ isLabel first = true
    /\ forallb isLabel rest = true.
Proof.
  exact (proj2 (proj2 validEmail_shape) "a@b" eq_refl).
Defined.

(** C5, the last part of the claim as it is written: it fails, the value
    a@b is accepted and its domain has no dot. *)
Lemma validEmail_accepts_dotless :
  ~ (forall v, validEmail v = true -> includes "." (afterAt v) = true).
Proof.
  intros H. specialize (H "a@b" eq_refl). discriminate H.
Qed.

End IsHelperFacts.

(** ** utils.ts: deepMerge *)

Module UtilsFacts.

Import Utils Spec.

Section Induction.

Variable P : jsval -> Prop.
Hypothesis P_undefined : P JUndefined.
Hypothesis P_null : P JNull.
Hypothesis P_bool : forall b, P (JBool b).
Hypothesis P_num : forall n, P (JNum n).
Hypothesis P_str : forall s, P (JStr s).
Hypothesis P_fun : forall t, P (JFun t).
Hypothesis P_obj :
  forall isArr props,
    Forall (fun kv => P (snd kv)) props -> P (JObj isArr props).

Lemma jsval_induction : forall v, P v.
Proof.
  fix IH 1. intros [| |b|n|s|t|isArr props].
  1-6: auto.
  apply P_obj. revert props. fix all 1.
  intros [|[k x] rest]; constructor; [apply IH | apply all].
Qed.

End Induction.

(** The equation of [merge] on two objects, as the source writes it. *)
Lemma merge_object (ia ib : bool) (aprops bprops : list (string * jsval)) :
  merge (JObj ia aprops) (JObj ib bprops)
  = JObj ib (map (mergeKey aprops bprops)
               (setOf [] (keys aprops ++ keys bprops))).
Proof.
  simpl. f_equal. apply map_ext. intros key. unfold mergeKey, get.
  induction bprops as [|[k valB] rest IH]; simpl.
  - reflexivity.
  - destruct (k =? key)%string; [reflexivity | exact IH].
Qed.

Lemma merge_primitive_override (a b : jsval) :
  match b with JObj _ _ => False | _ => True end -> merge a b = b.
Proof. destruct b; simpl; tauto. Qed.

Lemma merge_into_primitive (a b : jsval) :
  match a with JObj _ _ => False | _ => True end ->
  merge a b = match b with JObj _ _ => clone b | _ => b end.
Proof. destruct b; try reflexivity. destruct a; simpl; tauto. Qed.

Lemma mem_In (k : string) (l : list string) : mem k l = true <-> In k l.
Proof.
  unfold mem. rewrite existsb_exists. split.
  - intros (x & Hx & E). apply String.eqb_eq in E. now subst.
  - intros Hk. exists k. split; [exact Hk | apply String.eqb_refl].
Qed.

Lemma setOf_seen (seen l : list string) :
  (forall k, In k l -> mem k seen = true) -> setOf seen l = [].
Proof.
  induction l as [|k rest IH]; intros Hall; simpl; [reflexivity|].
  rewrite (Hall k (or_introl eq_refl)). apply IH.
  intros k' Hk'. apply Hall. now right.
Qed.

Lemma setOf_fresh (l : list string) :
  forall seen l2,
    distinct l = true ->
    (forall k, In k l -> mem k seen = false) ->
    (forall k, In k l2 -> mem k seen = true \/ In k l) ->
    setOf seen (l ++ l2) = l.
Proof.
  induction l as [|k rest IH]; intros seen l2 Hd Hfresh Hl2; simpl.
  - apply setOf_seen. intros k Hk. destruct (Hl2 k Hk) as [E | []]. exact E.
  - simpl in Hd. apply andb_true_iff in Hd as [Hk Hd].
    apply negb_true_iff in Hk.
    rewrite (Hfresh k (or_introl eq_refl)). f_equal. apply IH.
    + exact Hd.
    + intros k' Hk'. unfold mem. simpl.
      destruct (k' =? k)%string eqn:E.
      * apply String.eqb_eq in E. subst k'.
        apply mem_In in Hk'. congruence.
      * apply Hfresh. now right.
    + intros k' Hk'. destruct (Hl2 k' Hk') as [Hs | [<- | Hr]].
      * left. unfold mem in *. simpl. rewrite Hs. apply orb_true_r.
      * left. unfold mem. simpl. now rewrite String.eqb_refl.
      * now right.
Qed.

Lemma setOf_twice (l : list string) :
  distinct l = true -> setOf [] (l ++ l) = l.
Proof.
  intros Hd. apply setOf_fresh; [exact Hd | reflexivity | now right].
Qed.

Lemma get_distinct (props : list (string * jsval)) (k : string) (v : jsval) :
  distinct (keys props) = true -> In (k, v) props -> get props k = v.
Proof.
  unfold get. induction props as [|[k' v'] rest IH]; simpl; [tauto|].
  intros Hd [E | Hin].
  - injection E as -> ->. now rewrite String.eqb_refl.
  - apply andb_true_iff in Hd as [Hk Hd]. apply negb_true_iff in Hk.
    destruct (k' =? k)%string eqn:E.
    + apply String.eqb_eq in E. subst k'.
      assert (mem k (keys rest) = true) as Hm; [|congruence].
      apply mem_In. apply (in_map fst) in Hin. exact Hin.
    + now apply IH.
Qed.

Lemma wellFormed_object (isArr : bool) (props : list (string * jsval)) :
  wellFormed (JObj isArr props) = true ->
  distinct (keys props) = true
  /\ Forall (fun kv => wellFormed (snd kv) = true) props.
Proof.
  simpl. intros H. apply andb_true_iff in H as [Hd Hall]. split; [exact Hd|].
  clear Hd. induction props as [|[k x] rest IH]; constructor.
  - simpl. now apply andb_true_iff in Hall as [Hx _].
  - apply IH. now apply andb_true_iff in Hall as [_ Hr].
Qed.

Lemma merge_self (x : jsval) : wellFormed x = true -> merge x x = x.
Proof.
  induction x as [| | | | | |isArr props IH] using jsval_induction;
    try reflexivity.
  intros Hwf. apply wellFormed_object in Hwf as [Hd Hall].
  rewrite merge_object, (setOf_twice _ Hd). f_equal.
  unfold keys. rewrite map_map.
  transitivity (map (fun kv : string * jsval => kv) props); [|apply map_id].
  apply map_ext_in. intros [k v] Hin. simpl fst. unfold mergeKey. rewrite (get_distinct _ _ _ Hd Hin).
  rewrite Forall_forall in IH, Hall.
  specialize (IH _ Hin). specialize (Hall _ Hin). simpl in IH, Hall.
  destruct (isUndefined v) eqn:U.
  - destruct v; try discriminate U. reflexivity.
  - simpl. now rewrite IH.
Qed.

(** C9: merging a well-formed value with itself gives the value back, and
    merging the object with a null [a] over the object with [a] 1 and [b] 2
    gives the object with a null [a] and [b] 2. *)
Theorem deepMerge_idempotent :
  (forall x, wellFormed x = true -> deepMerge x x = x)
  /\ deepMerge (JObj false [("a", JNum 1); ("b", JNum 2)])
               (JObj false [("a", JNull)])
     = JObj false [("a", JNull); ("b", JNum 2)].
Proof.
  split; [exact merge_self | reflexivity].
Qed.

(** *** The override wins, key by key *)

Lemma mergeKey_fst (aprops bprops : list (string * jsval)) (key : string) :
  fst (mergeKey aprops bprops key) = key.
Proof. unfold mergeKey. now destruct (isUndefined _). Qed.

Lemma get_map_mergeKey (aprops bprops : list (string * jsval))
  (ks : list string) (k : string) :
  In k ks ->
  get (map (mergeKey aprops bprops) ks) k = snd (mergeKey aprops bprops k).
Proof.
  unfold get. induction ks as [|x ks IH]; simpl; [tauto|].
  intros Hin. rewrite mergeKey_fst.
  destruct (x =? k)%string eqn:E.
  - apply String.eqb_eq in E. now subst.
  - destruct Hin as [-> | Hin]; [now rewrite String.eqb_refl in E|].
    now apply IH.
Qed.

Lemma setOf_In (l : list string) (k : string) :
  forall seen, In k l -> mem k seen = false -> In k (setOf seen l).
Proof.
  induction l as [|x l IH]; intros seen Hin Hk; simpl; [destruct Hin|].
  destruct (String.eqb_spec x k) as [-> | Hne].
  - rewrite Hk. now left.
  - destruct Hin as [E | Hin]; [contradiction|].
    destruct (mem x seen).
    + now apply IH.
    + right. apply IH; [exact Hin|].
      unfold mem in *. simpl. rewrite Hk.
      destruct (String.eqb_spec k x); [now subst | reflexivity].
Qed.

Lemma get_defined (props : list (string * jsval)) (k : string) :
  get props k <> JUndefined -> In k (keys props).
Proof.
  unfold get. induction props as [|[x v] rest IH]; simpl; [congruence|].
  destruct (String.eqb_spec x k) as [-> | Hne]; [now left | right; now apply IH].
Qed.

Lemma get_clone (props : list (string * jsval)) (k : string) (s : string) :
  get props k = JStr s ->
  exists props',
    clone (JObj false props) = JObj false props' /\ get props' k = JStr s.
Proof.
  intros Hk. eexists. split; [reflexivity|]. simpl.
  unfold get in *. induction props as [|[x v] rest IH]; simpl in *.
  - discriminate Hk.
  - destruct (x =? k)%string; simpl in *.
    + now rewrite Hk.
    + now apply IH.
Qed.

(** Merging anything under an object keeps the strings of that object:
    the second argument of [deepMerge] is the one that wins. *)
Lemma deepMerge_second_wins (a : jsval) (bprops : list (string * jsval)) :
  exists props',
    deepMerge a (JObj false bprops) = JObj false props'
    /\ forall k s, get bprops k = JStr s -> get props' k = JStr s.
Proof.
  unfold deepMerge. destruct a as [| |b1|n1|s1|t1|ia aprops].
  1-6: (eexists; split; [reflexivity|]; intros k str Hk;
        destruct (get_clone _ _ Hk) as (p & E & Hp);
        injection E as <-; exact Hp).
  rewrite merge_object. eexists. split; [reflexivity|].
  intros k str Hk. rewrite get_map_mergeKey.
  - unfold mergeKey. now rewrite Hk.
  - apply setOf_In; [|reflexivity]. apply in_or_app. right.
    apply get_defined. congruence.
Qed.

(** *** The older merge: the first argument wins *)

Lemma get_set_same (props : list (string * jsval)) (k : string) (v : jsval) :
  get (set props k v) k = v.
Proof.
  unfold get. induction props as [|[x y] rest IH]; simpl.
  - now rewrite String.eqb_refl.
  - destruct (x =? k)%string eqn:E; simpl; rewrite E; [reflexivity | exact IH].
Qed.

Lemma get_set_other (props : list (string * jsval)) (i k : string)
  (v : jsval) :
  i <> k -> get (set props i v) k = get props k.
Proof.
  intros Hne. unfold get. induction props as [|[x y] rest IH]; simpl.
  - destruct (String.eqb_spec i k); [contradiction | reflexivity].
  - destruct (String.eqb_spec x i) as [-> | Hxi]; simpl.
    + destruct (String.eqb_spec i k); [contradiction | reflexivity].
    + destruct (x =? k)%string; [reflexivity | exact IH].
Qed.

Lemma shallowMerge_other (o1 : list (string * jsval)) (k : string) :
  forall o2, ~ In k (keys o1) -> get (shallowMerge o1 o2) k = get o2 k.
Proof.
  unfold shallowMerge. induction o1 as [|[x v] rest IH]; intros o2 Hk; simpl.
  - reflexivity.
  - rewrite IH; [|intros Hin; apply Hk; now right].
    apply get_set_other. intros ->. apply Hk. now left.
Qed.

Lemma shallowMerge_first_wins (o1 : list (string * jsval)) (k : string)
  (v : jsval) :
  forall o2, distinct (keys o1) = true -> In (k, v) o1 ->
             get (shallowMerge o1 o2) k = v.
Proof.
  induction o1 as [|[x y] rest IH]; intros o2 Hd Hin; [destruct Hin|].
  simpl in Hd. apply andb_true_iff in Hd as [Hx Hd].
  apply negb_true_iff in Hx. destruct Hin as [E | Hin].
  - injection E as -> ->.
    change (shallowMerge ((k, v) :: rest) o2)
      with (shallowMerge rest (set o2 k v)).
    rewrite shallowMerge_other; [apply get_set_same|].
    intros Hin. apply mem_In in Hin. congruence.
  - now apply (IH (set o2 x y)).
Qed.

Lemma deepMerge_idempotent_witness :
  deepMerge (FormValidator.defaultSettings
               (FormValidator.messagesValue FormValidator.defaultMessages))
            (FormValidator.defaultSettings
               (FormValidator.messagesValue FormValidator.defaultMessages))
  = FormValidator.defaultSettings
      (FormValidator.messagesValue FormValidator.defaultMessages).
Proof.
  exact (proj1 deepMerge_idempotent
           (FormValidator.defaultSettings
              (FormValidator.messagesValue FormValidator.defaultMessages))
           eq_refl).
Defined.

End UtilsFacts.

(** ** vanilla-form-validator.ts: the rule evaluator *)

Module FormValidatorFacts.

Import IsHelper Utils FormValidator Spec.

Local Open Scope js_scope.

Section Evaluator.

Context `{Host}.
Variable this : Validator.
Variable field : Field.

(** *** Invariants of the state *)

Lemma preserves_at {A} (I : VState -> Prop) (m : M A) (v : bool) :
  preserves I m -> preservesAt v I m.
Proof. intros Hm s Hs _. now apply Hm. Qed.

Lemma preserves_ret {A} (I : VState -> Prop) (a : A) : preserves I (ret a).
Proof. intros s Hs. exact Hs. Qed.

Lemma preserves_bind {A B} (I : VState -> Prop) (m : M A) (k : A -> M B) :
  preserves I m -> (forall a, preserves I (k a)) -> preserves I (bind m k).
Proof.
  intros Hm Hk s Hs. unfold bind. specialize (Hm s Hs).
  destruct (m s) as [[a|e] s']; simpl in *; [now apply Hk | exact Hm].
Qed.

Lemma preservesAt_bind {A B} (v : bool) (I : VState -> Prop)
  (m : M A) (k : A -> M B) :
  preservesAt v I m -> (forall a, preserves I (k a)) ->
  preservesAt v I (bind m k).
Proof.
  intros Hm Hk s Hs Hv. unfold bind. specialize (Hm s Hs Hv).
  destruct (m s) as [[a|e] s']; simpl in *; [now apply Hk | exact Hm].
Qed.

Lemma preservesAt_lift {A B} (v : bool) (I : VState -> Prop)
  (r : Result A) (k : A -> M B) :
  (forall a, preservesAt v I (k a)) -> preservesAt v I (bind (lift r) k).
Proof.
  intros Hk s Hs Hv. unfold bind, lift.
  destruct r as [a|e]; simpl; [now apply Hk | exact Hs].
Qed.

Lemma preserves_getValid {A} (I : VState -> Prop) (k : bool -> M A) :
  (forall v, preservesAt v I (k v)) -> preserves I (bind getValid k).
Proof. intros Hk s Hs. unfold bind, getValid. now apply (Hk (isValid s)). Qed.

Lemma preservesAt_when (v c : bool) (I : VState -> Prop) (m : M unit) :
  preservesAt true I m -> preservesAt v I (when (v && c) m).
Proof.
  intros Hm s Hs Hv. destruct v, c; simpl; try exact Hs. now apply Hm.
Qed.

Lemma preservesAt_when_true (c : bool) (I : VState -> Prop) (m : M unit) :
  preservesAt true I m -> preservesAt true I (when c m).
Proof.
  intros Hm s Hs Hv. destruct c; simpl; [now apply Hm | exact Hs].
Qed.

Lemma preserves_forEach {A} (I : VState -> Prop) (l : list A)
  (f : A -> M unit) :
  (forall x, preserves I (f x)) -> preserves I (forEach l f).
Proof.
  intros Hf. induction l as [|x rest IH]; simpl.
  - apply preserves_ret.
  - apply preserves_bind; [apply Hf | intros _; exact IH].
Qed.

Lemma preservesAt_when_self (v : bool) (I : VState -> Prop) (m : M unit) :
  preserves I m -> preservesAt v I (when v m).
Proof.
  intros Hm s Hs _. destruct v; simpl; [now apply Hm | exact Hs].
Qed.

(** *** The pipeline preserves what its checks preserve *)

Section Pipeline.

Variable I : VState -> Prop.

Hypothesis I_check :
  forall c r msg,
    lengthBlock c = false ->
    preservesAt true I (setVerdict (customErrorMessage field) c r msg).

Hypothesis I_length : preservesAt true I (lengthChecks this field).

Lemma requiredCheck_preserves : preservesAt true I (requiredCheck this field).
Proof.
  unfold requiredCheck. apply preservesAt_when_true.
  destruct (isCheckboxOrRadio (type_ field)).
  - apply preservesAt_lift. intros r. now apply I_check.
  - now apply I_check.
Qed.

Lemma typeCheck_preserves : preservesAt true I (typeCheck this field).
Proof.
  unfold typeCheck.
  repeat match goal with
         | |- context [if ?c then _ else _] => destruct c
         end; try (now apply I_check).
  exact I_length.
Qed.

Lemma patternCheck_preserves : preservesAt true I (patternCheck this field).
Proof.
  unfold patternCheck. apply preservesAt_lift. intros r. now apply I_check.
Qed.

Lemma applyRule_preserves (rule : Rule.t) :
  preserves I (applyRule this field rule).
Proof.
  unfold applyRule. apply preserves_getValid. intros v.
  destruct v; [|intros s Hs _; exact Hs]. simpl when.
  destruct (Rule.method rule) as [f|m|].
  - apply preservesAt_lift. intros r. now apply I_check.
  - repeat match goal with
           | |- context [if (?a =? ?b)%string then _ else _] =>
               destruct (a =? b)%string
           end;
      try (apply preservesAt_when_true; apply preservesAt_lift; intros r;
           now apply I_check).
    + apply preservesAt_when_true. apply preservesAt_lift.
      intros [target|]; [now apply I_check | intros s Hs _; exact Hs].
    + intros s Hs _; exact Hs.
  - intros s Hs _; exact Hs.
Qed.

Lemma declaredRules_preserves : preserves I (declaredRules this field).
Proof.
  unfold declaredRules. destruct declaredFields as [fs|].
  - apply preserves_forEach. intros fieldSetting. unfold applyFieldSetting.
    destruct (FieldSetting.rules fieldSetting) as [rules|].
    + destruct (nameMatches _ _); simpl.
      * apply preserves_forEach. exact applyRule_preserves.
      * apply preserves_ret.
    + apply preserves_ret.
  - apply preserves_ret.
Qed.

Lemma fieldVerdict_preserves : preservesAt true I (fieldVerdict this field).
Proof.
  unfold fieldVerdict. cbv zeta.
  apply preservesAt_bind; [exact requiredCheck_preserves | intros _].
  apply preserves_getValid. intros v. apply preservesAt_when.
  apply preservesAt_bind; [exact typeCheck_preserves | intros _].
  apply preserves_getValid. intros v1.
  apply preservesAt_bind.
  - rewrite <- andb_assoc. apply preservesAt_when.
    exact patternCheck_preserves.
  - intros _. apply preserves_getValid. intros v2.
    apply preservesAt_when_self. exact declaredRules_preserves.
Qed.

(** What holds at the start and is kept by the checks holds at the end,
    whether the evaluation returns or throws. *)
Lemma fieldVerdict_invariant :
  I (initial field) -> I (snd (fieldVerdict this field (initial field))).
Proof.
  intros H0. now apply fieldVerdict_preserves.
Qed.

End Pipeline.

(** *** The length block, run *)

Lemma lengthChecks_run (s : VState) :
  lengthChecks this field s
  = match getLength this (value field) field with
    | Ok len =>
        (Ok tt,
         afterRange this field len
           (afterMax this field len (afterMin this field len s)))
    | Throw e =>
        if usable (minBound field) || usable (maxBound field)
        then (Throw e, s) else (Ok tt, s)
    end.
Proof.
  unfold lengthChecks, minCheck, maxCheck, rangeCheck, afterRange, afterMax,
    afterMin, after, minMessage, maxMessage, rangeMessage, minBound, maxBound,
    minlength, maxlength, rangelength, bind, lift, when, rbind.
  cbv zeta.
  destruct (getLength this (value field) field) as [len|e];
    destruct (usable (bound field "minlength" "min"));
    destruct (usable (bound field "maxlength" "max")); reflexivity.
Qed.

(** *** C1: what follows a failed check *)

Lemma settledRec_settled (tr : list Event) : settledRec tr -> settled tr.
Proof.
  induction tr as [|a tr IH]; intros Hs l1 e l2 E He.
  - destruct l1; discriminate E.
  - destruct Hs as [Hhead Hrest]. destruct l1 as [|x l1]; simpl in E.
    + injection E as -> ->. exact (Hhead He).
    + injection E as _ ->. exact (IH Hrest l1 e l2 eq_refl He).
Qed.

Lemma settledRec_app (old evs : list Event) :
  Forall (fun e => passed e = true) old -> settledRec evs ->
  settledRec (old ++ evs).
Proof.
  induction 1 as [|a old Ha _ IH]; intros Hevs; simpl; [exact Hevs|].
  split; [congruence | exact (IH Hevs)].
Qed.

Lemma orderly_extend (s s' : VState) (evs : list Event) :
  orderly s -> isValid s = true ->
  trace s' = (trace s ++ evs)%list ->
  settledRec evs ->
  (isValid s' = true -> Forall (fun e => passed e = true) evs) ->
  orderly s'.
Proof.
  intros [_ Hp] Hv Etr Hs Hn. specialize (Hp Hv). split; rewrite Etr.
  - apply settledRec_settled. now apply settledRec_app.
  - intros Hv'. apply Forall_app. split; [exact Hp | now apply Hn].
Qed.

Ltac settle :=
  simpl; repeat split; intros;
  repeat (first [apply Forall_nil | apply Forall_cons]);
  unfold late; simpl; auto.

Lemma orderly_check (c : Check) (r : bool) (msg : string) :
  preservesAt true orderly (setVerdict (customErrorMessage field) c r msg).
Proof.
  intros s Hs Hv.
  eapply orderly_extend; [exact Hs | exact Hv | reflexivity | |].
  - settle.
  - simpl. intros ->. settle.
Qed.

Lemma orderly_length : preservesAt true orderly (lengthChecks this field).
Proof.
  intros s Hs Hv. rewrite lengthChecks_run.
  destruct (getLength this (value field) field) as [len|e].
  2:{ destruct (_ || _); exact Hs. }
  unfold afterRange, afterMax, afterMin, after. simpl snd.
  destruct (usable (minBound field)), (usable (maxBound field)); simpl;
    try exact Hs.
  - destruct (num_ge len _), (num_le len _);
      (eapply orderly_extend;
       [exact Hs | exact Hv
       | simpl; rewrite <- !app_assoc; simpl; reflexivity
       | settle
       | simpl; intros E; try discriminate E; settle ]).
  - destruct (num_ge len _);
      (eapply orderly_extend;
       [exact Hs | exact Hv | reflexivity
       | settle
       | simpl; intros E; try discriminate E; settle ]).
  - destruct (num_le len _);
      (eapply orderly_extend;
       [exact Hs | exact Hv | reflexivity
       | settle
       | simpl; intros E; try discriminate E; settle ]).
Qed.

Lemma orderly_initial : orderly (initial field).
Proof.
  split; simpl.
  - intros l1 e l2 E. destruct l1; discriminate E.
  - constructor.
Qed.

(** *** C6: the messages of the length block *)

Section NoCustomMessage.

Hypothesis no_custom : customErrorMessage field = "".

Lemma lengthVerdicts_valid (s : VState) (e : Event) :
  lengthVerdicts this field s -> isValid s = true ->
  In e (trace s) -> passed e = false ->
  check e <> CkMin /\ check e <> CkMax.
Proof.
  intros Hs Hv Hin He. destruct (Hs e Hin He) as [Hmin Hmax].
  split; intros Hc.
  - destruct (Hmin Hc) as [Hf _]. congruence.
  - destruct (Hmax Hc) as [Hf _]. congruence.
Qed.

Lemma lengthVerdicts_check (c : Check) (r : bool) (msg : string) :
  lengthBlock c = false ->
  preservesAt true (lengthVerdicts this field)
    (setVerdict (customErrorMessage field) c r msg).
Proof.
  intros Hc s Hs Hv e Hin He. simpl in Hin.
  apply in_app_iff in Hin as [Hin | [<- | []]].
  - destruct (@lengthVerdicts_valid s e Hs Hv Hin He) as [Hmin Hmax].
    split; intros; contradiction.
  - simpl. split; intros ->; discriminate Hc.
Qed.

Lemma lengthVerdicts_length :
  preservesAt true (lengthVerdicts this field) (lengthChecks this field).
Proof.
  intros s Hs Hv. rewrite lengthChecks_run.
  destruct (getLength this (value field) field) as [len|e0].
  2:{ destruct (_ || _); exact Hs. }
  unfold afterRange, afterMax, afterMin, after. rewrite no_custom. simpl snd.
  destruct (usable (minBound field)) eqn:Umin,
           (usable (maxBound field)) eqn:Umax; simpl; try exact Hs;
    try destruct (num_ge len _); try destruct (num_le len _);
    intros e Hin He; simpl in Hin; rewrite ?in_app_iff in Hin; simpl in Hin;
    repeat match goal with
           | Hin : _ \/ _ |- _ => destruct Hin as [Hin | Hin]
           | Hin : False |- _ => destruct Hin
           end;
    try (destruct (@lengthVerdicts_valid s e Hs Hv Hin He) as [Hmin Hmax];
         split; intros; contradiction);
    subst e; try discriminate He;
    (split; intros Hc; try discriminate Hc; simpl;
     repeat split; try reflexivity; intros; congruence).
Qed.

Lemma lengthVerdicts_initial : lengthVerdicts this field (initial field).
Proof. intros e []. Qed.

End NoCustomMessage.

(** *** C10: an optional field left empty *)

Lemma fieldVerdict_empty :
  hasAttribute field "required" = false -> value field = "" ->
  fieldVerdict this field (initial field) = (Ok tt, initial field).
Proof.
  intros Hreq Hval. unfold fieldVerdict, requiredCheck. cbv zeta.
  rewrite Hreq, Hval. reflexivity.
Qed.

(** *** C8: an equalTo rule with no target *)


End Evaluator.

(** Computations that agree run alike. *)
Lemma bind_ext {A B} (m m' : M A) (k k' : A -> M B) (s : VState) :
  m s = m' s -> (forall a s', k a s' = k' a s') -> bind m k s = bind m' k' s.
Proof.
  intros Hm Hk. unfold bind. rewrite Hm.
  destruct (m' s) as [[a|e] s']; [apply Hk | reflexivity].
Qed.

Lemma forEach_skip {A} (f : A -> M unit) (x : A) (l1 l2 : list A) :
  (forall s, f x s = (Ok tt, s)) ->
  forall s, forEach (l1 ++ x :: l2) f s = forEach (l1 ++ l2) f s.
Proof.
  intros Hx. induction l1 as [|a l1 IH]; intros s; simpl.
  - unfold bind. now rewrite Hx.
  - apply bind_ext; [reflexivity | intros _ s'; apply IH].
Qed.


(** The verdict depends on the declared rules only through
    [declaredRules]. *)
Lemma fieldVerdict_declared `{Host} (this : Validator) (field : Field)
  (d d' : list FieldSetting.t) :
  (forall s, declaredRules (withDeclared this d) field s
             = declaredRules (withDeclared this d') field s) ->
  forall s, fieldVerdict (withDeclared this d) field s
            = fieldVerdict (withDeclared this d') field s.
Proof.
  intros Hd s. unfold fieldVerdict. cbv zeta.
  apply bind_ext; [reflexivity | intros _ s1].
  apply bind_ext; [reflexivity | intros v s2].
  destruct (v && _); [|reflexivity]. simpl when.
  apply bind_ext; [reflexivity | intros _ s3].
  apply bind_ext; [reflexivity | intros v1 s4].
  apply bind_ext; [reflexivity | intros _ s5].
  apply bind_ext; [reflexivity | intros v2 s6].
  destruct v2; [apply Hd | reflexivity].
Qed.

(** *** The evaluator on the examples of the specification *)

Example required_empty :
  Demo.run (Demo.validator [Demo.requiredEmpty] None) Demo.requiredEmpty
  = (Ok tt,
     {| isValid := false;
        errorMessage := "This field is required.";
        trace := [{| check := CkRequired; passed := false;
                     message := "This field is required." |}] |}).
Proof. reflexivity. Qed.

Example email_accepted :
  @validateField Demo.host (Demo.validator [Demo.goodEmail] None)
    Demo.goodEmail = Ok true.
Proof. reflexivity. Qed.

Example email_rejected :
  snd (Demo.run (Demo.validator [Demo.badEmail] None) Demo.badEmail)
  = {| isValid := false;
       errorMessage := "Please enter a valid email address.";
       trace := [{| check := CkEmail; passed := false;
                    message := "Please enter a valid email address." |}] |}.
Proof. reflexivity. Qed.

Example minlength_rejected :
  snd (Demo.run (Demo.validator [Demo.tooShort] None) Demo.tooShort)
  = {| isValid := false;
       errorMessage := "Please enter at least 5 characters.";
       trace := [{| check := CkMin; passed := false;
                    message := "Please enter at least 5 characters." |}] |}.
Proof. reflexivity. Qed.

Example minlength_accepted :
  @validateField Demo.host (Demo.validator [Demo.longEnough] None)
    Demo.longEnough = Ok true.
Proof. reflexivity. Qed.

Example range_accepted :
  @validateField Demo.host (Demo.validator [Demo.withinRange] None)
    Demo.withinRange = Ok true.
Proof. reflexivity. Qed.

Example range_rejected :
  let s := snd (Demo.run (Demo.validator [Demo.beyondRange] None)
                  Demo.beyondRange) in
  isValid s = false
  /\ errorMessage s = "Please enter a value between 3 and 7".
Proof. split; reflexivity. Qed.

Example equalTo_equal :
  @validateField Demo.host
    (Demo.validator [Demo.confirmation; Demo.other "xyz"]
       (Some [Demo.declare "again" [Demo.sameAsOther]]))
    Demo.confirmation = Ok true.
Proof. reflexivity. Qed.

Example equalTo_unequal :
  let s := snd (Demo.run
                  (Demo.validator [Demo.confirmation; Demo.other "xy"]
                     (Some [Demo.declare "again" [Demo.sameAsOther]]))
                  Demo.confirmation) in
  isValid s = false
  /\ errorMessage s = "Please enter the same value again.".
Proof. split; reflexivity. Qed.

Example radio_none_checked :
  @validateForm Demo.host
    (Demo.validator [Demo.plan "free" false; Demo.plan "paid" false] None)
  = Ok false.
Proof. reflexivity. Qed.

Example radio_one_checked :
  @validateFormLog Demo.host
    (Demo.validator [Demo.plan "free" false; Demo.plan "paid" true] None)
  = Ok (true, [(Demo.plan "free" false, true); (Demo.plan "paid" true, true)]).
Proof. reflexivity. Qed.

(** C1, as the code has it: in every evaluation, whether it returns or
    throws, a failed check is followed by no check other than the maximum
    and the range check of the length block, so that no type-specific,
    pattern or declared-rule check overwrites a message or sets validity
    again; validity is false at the end as soon as one check failed, and
    that validity is what [validateField] returns. *)
Theorem failure_is_settled `{Host} (this : Validator) (field : Field) :
  let st := snd (fieldVerdict this field (initial field)) in
  settled (trace st)
  /\ (Exists (fun e => passed e = false) (trace st) -> isValid st = false)
  /\ (forall b, validateField this field = Ok b -> b = isValid st).
Proof.
  intros st.
  assert (Ho : orderly st).
  { apply fieldVerdict_preserves;
      [ intros c r msg _; apply orderly_check
      | apply orderly_length | apply orderly_initial | reflexivity ]. }
  destruct Ho as [Hs Hp]. split; [exact Hs|]. split.
  - intros Hex. destruct (isValid st) eqn:Hv; [|reflexivity].
    apply Exists_exists in Hex as (e & Hin & He).
    specialize (Hp eq_refl). rewrite Forall_forall in Hp.
    specialize (Hp e Hin). congruence.
  - intros b. unfold validateField. subst st.
    destruct (fieldVerdict this field (initial field)) as [[u|e] s]; simpl.
    + destruct (documentQuery _); simpl; [|discriminate].
      destruct (display _ _ _ _); simpl; [|discriminate].
      intros E. now injection E.
    + discriminate.
Qed.

(** C1 as it is written fails: for a password of two characters where
    five to ten are asked for, the minimum check fails and sets its
    message, the maximum check passes (and sets validity to true), and
    the range check fails and replaces the message of the minimum check
    by its own. *)
Lemma failure_message_is_overwritten :
  Demo.run (Demo.validator [Demo.shortPassword] None) Demo.shortPassword
  = (Ok tt,
     {| isValid := false;
        errorMessage :=
          "Please enter a value between 5 and 10 characters long";
        trace :=
          [{| check := CkMin; passed := false;
              message := "Please enter at least 5 characters." |};
           {| check := CkMax; passed := true;
              message := "Please enter at least 5 characters." |};
           {| check := CkRange; passed := false;
              message :=
                "Please enter a value between 5 and 10 characters long" |}]
     |})
  /\ ~ keepsMessage
        (trace (snd (Demo.run (Demo.validator [Demo.shortPassword] None)
                       Demo.shortPassword))).
Proof.
  split; [reflexivity|]. intros Hm.
  specialize (Hm [] {| check := CkMin; passed := false;
                       message := "Please enter at least 5 characters." |}
                 _ eq_refl eq_refl).
  inversion Hm as [|e2 l2 _ Hrest]. inversion Hrest as [|e3 l3 He3 _].
  discriminate He3.
Qed.

(** C6, as the code has it: with no custom message, the message that a
    failed minimum-length check sets is the [min] entry of the catalog when
    the field carries a non-empty [min] attribute (wherever the bound came
    from) and the [minlength] entry otherwise, with the bound in place of
    the first placeholder; it is the message of the verdict when no
    maximum is in force.  Likewise for the maximum with [max] and
    [maxlength]. *)
Theorem length_message_variant `{Host} (this : Validator) (field : Field) :
  customErrorMessage field = "" ->
  lengthVerdicts this field (snd (fieldVerdict this field (initial field))).
Proof.
  intros Hc. apply fieldVerdict_preserves.
  - intros c r msg Hb. now apply lengthVerdicts_check.
  - now apply lengthVerdicts_length.
  - apply lengthVerdicts_initial.
  - reflexivity.
Qed.

Lemma length_message_variant_witness :
  customErrorMessage Demo.twoMinima = ""
  /\ errorMessage (snd (Demo.run (Demo.validator [Demo.twoMinima] None)
                          Demo.twoMinima))
     = "Please enter a value at least 5.".
Proof.
  split; [reflexivity|].
  pose proof (@length_message_variant Demo.host
                (Demo.validator [Demo.twoMinima] None) Demo.twoMinima
                eq_refl) as L.
  destruct (L {| check := CkMin; passed := false;
                 message := "Please enter a value at least 5." |}
              (or_introl eq_refl) eq_refl) as [Hmin _].
  destruct (Hmin eq_refl) as (_ & Hm & Hfinal).
  exact (Hfinal eq_refl).
Defined.

(** C6 as it is written fails: the bound of this field comes from
    [minlength], and the message is the [min] entry. *)
Lemma length_message_not_by_source :
  ~ (forall e,
       In e (trace (snd (Demo.run (Demo.validator [Demo.twoMinima] None)
                           Demo.twoMinima))) ->
       check e = CkMin -> passed e = false ->
       message e
       = minMessageBySource (Demo.validator [Demo.twoMinima] None)
           Demo.twoMinima).
Proof.
  intros Hall.
  specialize (Hall _ (or_introl eq_refl) eq_refl eq_refl).
  vm_compute in Hall. discriminate Hall.
Qed.

(** C10, what holds and where it fails.  A field that is not required
    and whose value is empty gets a valid verdict without any check (the
    state stays the initial one and the trace empty, whatever rules are
    declared, throwing predicates included); [validateField] then looks
    the error node up, updates it and returns true, as it does for the
    empty nickname with a throwing rule.  The lookup takes the identifier
    of the field as it is, behind a number sign: for such a field with the
    identifier 1a the selector is malformed, and [validateField] throws a
    SyntaxError where the claim has it return true. *)
Theorem optional_empty_field_throws :
  (forall (H : Host) (this : Validator) (field : Field),
     hasAttribute field "required" = false -> value field = "" ->
     fieldVerdict this field (initial field) = (Ok tt, initial field)
     /\ isValid (initial field) = true
     /\ trace (initial field) = []
     /\ validateField this field
        = rbind (documentQuery ("#" ++ errorHelpId field))
                (fun _ =>
                   rbind (display (errorHelpId field) field true
                            (errorMessage (initial field)))
                         (fun _ => Ok true)))
  /\ @validateField Demo.host
       (Demo.validator [Demo.emptyNick]
          (Some [Demo.declare "nick" [Demo.throwingRule]]))
       Demo.emptyNick
     = Ok true
  /\ hasAttribute Samples.digitId "required" = false
  /\ value Samples.digitId = ""
  /\ errorHelpId Samples.digitId = "1a-error"
  /\ @fieldVerdict Samples.strict (Demo.validator [Samples.digitId] None)
       Samples.digitId (initial Samples.digitId)
     = (Ok tt, initial Samples.digitId)
  /\ @validateField Samples.strict (Demo.validator [Samples.digitId] None)
       Samples.digitId
     = Throw SyntaxError.
Proof.
  split.
  - intros H this field Hreq Hval.
    split; [now apply fieldVerdict_empty|].
    split; [reflexivity|]. split; [reflexivity|].
    unfold validateField. now rewrite fieldVerdict_empty.
  - repeat (split; [reflexivity|]). reflexivity.
Qed.



(** *** validateForm *)

Lemma visit_log `{Host} (this : Validator) (fs : list Field) :
  forall isValid visited,
    match visit this fs isValid visited with
    | Ok (b, log) =>
        exists new,
          log = (visited ++ new)%list
          /\ map fst new = fs
          /\ Forall (fun fb => validateField this (fst fb) = Ok (snd fb)) new
          /\ b = isValid && forallb snd new
    | Throw e => Exists (fun f => validateField this f = Throw e) fs
    end.
Proof.
  induction fs as [|f rest IH]; intros isValid visited; simpl.
  - exists []. rewrite app_nil_r, andb_true_r. repeat split. constructor.
  - destruct (validateField this f) as [isValidField|e] eqn:Ef; simpl.
    + specialize (IH (if negb isValidField then false else isValid)
                     (visited ++ [(f, isValidField)])%list).
      destruct (visit this rest _ _) as [[b log]|e].
      * destruct IH as (new & -> & Hfst & Hall & ->).
        exists ((f, isValidField) :: new). rewrite <- app_assoc. simpl.
        repeat split.
        -- now rewrite Hfst.
        -- constructor; [exact Ef | exact Hall].
        -- destruct isValidField, isValid; reflexivity.
      * now apply Exists_cons_tl.
    + now apply Exists_cons_hd.
Qed.

(** C7: [validateForm] hands every tracked field to [validateField], in
    order, whatever the earlier fields returned, and returns the
    conjunction of what the calls returned: true exactly when every one
    of them returned true.  It returns as soon as no call throws; it
    throws only what one of the calls throws. *)
Theorem validateForm_visits_all `{Host} (this : Validator) :
  match validateFormLog this with
  | Ok (b, log) =>
      map fst log = tracked this
      /\ Forall (fun fb => validateField this (fst fb) = Ok (snd fb)) log
      /\ b = forallb snd log
      /\ (b = true <->
          Forall (fun f => validateField this f = Ok true) (tracked this))
      /\ validateForm this = Ok b
  | Throw e =>
      Exists (fun f => validateField this f = Throw e) (tracked this)
      /\ validateForm this = Throw e
  end.
Proof.
  unfold validateForm, validateFormLog, tracked.
  destruct (fields this) as [fs|]; simpl.
  2:{ repeat split; constructor. }
  pose proof (visit_log this fs true []) as Hv.
  destruct (visit this fs true []) as [[b log]|e]; simpl; [|now split].
  destruct Hv as (new & -> & Hfst & Hall & ->). simpl.
  repeat split; try assumption.
  - intros Hb. rewrite forallb_forall in Hb. rewrite <- Hfst.
    apply Forall_map. rewrite Forall_forall in Hall |- *.
    intros fb Hin. rewrite (Hall fb Hin). now rewrite (Hb fb Hin).
  - intros Htrue. apply forallb_forall. intros fb Hin.
    rewrite Forall_forall in Hall, Htrue.
    specialize (Hall fb Hin).
    assert (In (fst fb) fs) as Hf by (rewrite <- Hfst; now apply in_map).
    specialize (Htrue _ Hf). rewrite Htrue in Hall. now injection Hall.
Qed.

End FormValidatorFacts.

(** ** isHelper.ts: validDate *)

Module DateFacts.

Import IsHelper FormValidator.

Lemma getAttribute_hasAttribute (field : Field) (a s : string) :
  getAttribute field a = Some s -> hasAttribute field a = true.
Proof.
  unfold getAttribute, hasAttribute.
  induction (attributes field) as [|[k v] rest IH]; simpl; [discriminate|].
  destruct (k =? a)%string; [reflexivity | exact IH].
Qed.

(** What [validDate] computes: the value parses to a time other than 0
    and is neither below a non-empty [min] nor above a non-empty [max]. *)
Lemma validDate_eq `{Host} (field : Field) :
  validDate field
  = match Date_parse (value field) with
    | Some v =>
        negb (v =? 0)
        && negb (truthyAttr (getAttribute field "min")
                 && num_lt (Some v)
                      (Date_parse (text (getAttribute field "min"))))
        && negb (truthyAttr (getAttribute field "max")
                 && num_gt (Some v)
                      (Date_parse (text (getAttribute field "max"))))
    | None => false
    end.
Proof.
  unfold validDate. cbv zeta.
  destruct (Date_parse (value field)) as [v|]; [|reflexivity]. simpl.
  destruct (v =? 0); [reflexivity|]. simpl.
  assert (E : forall a,
             hasAttribute field a
             && (truthyAttr (getAttribute field a)
                 && negb (text (getAttribute field a) =? "")%string
                 && num_lt (Some v) (Date_parse (text (getAttribute field a))))
             = truthyAttr (getAttribute field a)
               && num_lt (Some v) (Date_parse (text (getAttribute field a)))).
  { intros a. destruct (getAttribute field a) as [s|] eqn:Ea; simpl.
    - rewrite (getAttribute_hasAttribute _ _ Ea). unfold truthy.
      now destruct (s =? "")%string.
    - now rewrite andb_false_r. }
  assert (E' : forall a,
             hasAttribute field a
             && (truthyAttr (getAttribute field a)
                 && negb (text (getAttribute field a) =? "")%string
                 && num_gt (Some v) (Date_parse (text (getAttribute field a))))
             = truthyAttr (getAttribute field a)
               && num_gt (Some v) (Date_parse (text (getAttribute field a)))).
  { intros a. destruct (getAttribute field a) as [s|] eqn:Ea; simpl.
    - rewrite (getAttribute_hasAttribute _ _ Ea). unfold truthy.
      now destruct (s =? "")%string.
    - now rewrite andb_false_r. }
  rewrite E, E'.
  destruct (truthyAttr (getAttribute field "min") && _); [reflexivity|].
  now destruct (truthyAttr (getAttribute field "max") && _).
Qed.

(** The part of C4 that holds: a value that does not parse is invalid. *)
Lemma validDate_unparseable `{Host} (field : Field) :
  Date_parse (value field) = None -> validDate field = false.
Proof. intros E. now rewrite validDate_eq, E. Qed.

(** The part of C4 that holds: a value that parses to a time other than
    0 and lies within the bounds of the non-empty attributes is valid. *)
Lemma validDate_within_bounds `{Host} (field : Field) (v : Z) :
  Date_parse (value field) = Some v -> v <> 0 ->
  (forall lo, truthyAttr (getAttribute field "min") = true ->
              Date_parse (text (getAttribute field "min")) = Some lo ->
              lo <= v) ->
  (forall hi, truthyAttr (getAttribute field "max") = true ->
              Date_parse (text (getAttribute field "max")) = Some hi ->
              v <= hi) ->
  validDate field = true.
Proof.
  intros E Hv Hlo Hhi. rewrite validDate_eq, E.
  apply Z.eqb_neq in Hv. rewrite Hv. simpl.
  apply andb_true_iff. split; apply negb_true_iff.
  - destruct (truthyAttr (getAttribute field "min")); [|reflexivity]. simpl.
    destruct (Date_parse (text (getAttribute field "min"))) as [lo|];
      [|reflexivity].
    apply Z.ltb_ge. now apply Hlo.
  - destruct (truthyAttr (getAttribute field "max")); [|reflexivity]. simpl.
    destruct (Date_parse (text (getAttribute field "max"))) as [hi|];
      [|reflexivity].
    apply Z.ltb_ge. now apply Hhi.
Qed.

(** Where C4 fails: a value that parses to the time 0 is invalid. *)
Lemma validDate_time_zero `{Host} (field : Field) :
  Date_parse (value field) = Some 0 -> validDate field = false.
Proof. intros E. now rewrite validDate_eq, E. Qed.

(** C4 at the failing input: the first day of 1970 parses, to the time 0,
    no bound is declared, and [validDate] rejects the field, which is
    shown the date message. *)
Theorem validDate_rejects_epoch_day :
  @Date_parse Demo.host (value Demo.epochDay) = Some 0
  /\ getAttribute Demo.epochDay "min" = None
  /\ getAttribute Demo.epochDay "max" = None
  /\ @validDate Demo.host Demo.epochDay = false
  /\ Demo.run (Demo.validator [Demo.epochDay] None) Demo.epochDay
     = (Ok tt,
        {| isValid := false;
           errorMessage := "Please enter a valid date.";
           trace := [{| check := CkDate; passed := false;
                        message := "Please enter a valid date." |}] |}).
Proof.
  split; [reflexivity|]. split; [reflexivity|]. split; [reflexivity|].
  split; [|reflexivity].
  now apply (@validDate_time_zero Demo.host).
Qed.

End DateFacts.

(** ** The constructor and loadMessages *)

Module ConstructorFacts.

Import Utils FormValidator UtilsFacts.

(** C2 at the failing input: merging an omitted settings argument over
    the defaults gives [undefined], and the constructor throws when it
    reads the messages of that. *)
Theorem constructor_without_settings_throws :
  (forall obj1, deepMerge obj1 JUndefined = JUndefined)
  /\ constructor true JUndefined = Throw TypeError.
Proof.
  split; [intros obj1|]; reflexivity.
Qed.

Lemma canonical_default (k : string) :
  In k canonicalKeys ->
  exists s, get (messageProps defaultMessages) k = JStr s.
Proof.
  intros Hin. simpl in Hin.
  repeat (destruct Hin as [<- | Hin]; [eexists; reflexivity|]).
  destruct Hin.
Qed.

Lemma constructor_messages (settings : jsval) (this : Members) :
  constructor true settings = Ok this ->
  exists m,
    messagesNow this = deepMerge m (JObj false (messageProps defaultMessages)).
Proof.
  unfold constructor, rbind. cbv beta iota zeta.
  destruct (member _ "messages") as [m|e]; [|discriminate].
  intros E. injection E as <-. now exists m.
Qed.

Lemma loadMessages_messages (this : Members) (data : jsval) :
  messagesNow (loadMessages this data) = messagesNow this
  \/ exists dm,
       messagesNow (loadMessages this data) = deepMerge dm (messagesNow this).
Proof.
  unfold loadMessages.
  destruct (member data "messages") as [dm|e]; [|now left].
  destruct (_ && _); [right; now exists dm | now left].
Qed.

(** C3, what the code does instead: after construction every canonical
    key carries the default message, whatever messages the settings
    supply, and it still does after any [loadMessages]: in both merges the
    messages in place are the second argument of [deepMerge], the one
    that wins. *)
Theorem messages_in_place_win (settings : jsval) (this : Members) :
  constructor true settings = Ok this ->
  forall k, In k canonicalKeys ->
    entry (messagesNow this) k = entry (messagesValue defaultMessages) k
    /\ forall data,
         entry (messagesNow (loadMessages this data)) k
         = entry (messagesValue defaultMessages) k.
Proof.
  intros E k Hk.
  destruct (@canonical_default k Hk) as (s & Hs).
  destruct (@constructor_messages settings this E) as (m & Em).
  destruct (deepMerge_second_wins m (messageProps defaultMessages))
    as (now_ & Enow & Hnow).
  rewrite Enow in Em.
  assert (Hdefault : entry (messagesValue defaultMessages) k = s).
  { unfold entry, messagesValue. now rewrite Hs. }
  assert (Hplace : entry (messagesNow this) k = s).
  { rewrite Em. unfold entry. now rewrite (Hnow k s Hs). }
  rewrite Hdefault. split; [exact Hplace|].
  intros data. destruct (loadMessages_messages this data) as [-> | (dm & ->)];
    [exact Hplace|].
  rewrite Em.
  destruct (deepMerge_second_wins dm now_) as (next & -> & Hnext).
  unfold entry. now rewrite (Hnext k s (Hnow k s Hs)).
Qed.

(** C3 at the failing input: the settings replace the message of
    [required], the merged settings carry the replacement, and the
    messages of the instance carry the default, before and after a
    fetched file replaces it again. *)
Lemma messages_in_place_win_witness :
  exists this,
    constructor true Demo.frenchSettings = Ok this
    /\ rbind (member (settingsValue this) "messages")
             (fun m => Ok (entry m "required"))
       = Ok "Ce champ est obligatoire."
    /\ entry (messagesNow this) "required" = "This field is required."
    /\ entry (messagesNow (loadMessages this Demo.fetchedMessages)) "required"
       = "This field is required.".
Proof.
  eexists. split; [reflexivity|]. split; [reflexivity|].
  exact (conj
           (proj1 (@messages_in_place_win Demo.frenchSettings _ eq_refl
                     "required" (or_introl eq_refl)))
           (proj2 (@messages_in_place_win Demo.frenchSettings _ eq_refl
                     "required" (or_introl eq_refl))
                  Demo.fetchedMessages)).
Defined.

(** The older [merge], still exported, was called with the same
    arguments in the same order, and there the first argument wins. *)
Lemma older_merge_first_wins :
  get (shallowMerge [("required", JStr "Ce champ est obligatoire.")]
         (messageProps defaultMessages)) "required"
  = JStr "Ce champ est obligatoire.".
Proof.
  apply shallowMerge_first_wins; [reflexivity | now left].
Qed.

End ConstructorFacts.

(** ** isHelper.ts: what the patterns accept *)

Module PatternFacts.

Import Regex RegexFacts IsHelper IsHelperRest Vocabulary.

#[local] Unset Implicit Arguments.

Lemma everyChar_sound (f : ascii -> bool) :
  everyChar f = true -> forall c, f c = true.
Proof.
  unfold everyChar. rewrite forallb_forall. intros Hall c.
  rewrite <- (ascii_nat_embedding c). apply Hall. apply in_seq.
  pose proof (nat_ascii_bounded c). split; [apply Nat.le_0_l | exact H].
Qed.

Lemma allOf_app (P : ascii -> bool) (s1 s2 : string) :
  allOf P (s1 ++ s2) = allOf P s1 && allOf P s2.
Proof.
  induction s1 as [|c s1 IH]; simpl; [reflexivity|].
  now rewrite IH, andb_assoc.
Qed.

Lemma length_app (s1 s2 : string) :
  String.length (s1 ++ s2) = (String.length s1 + String.length s2)%nat.
Proof. induction s1 as [|c s1 IH]; simpl; [reflexivity | now rewrite IH]. Qed.

(** A string of the language is made of characters of the classes. *)
Lemma lang_within (P : ascii -> bool) (r : re) :
  classesWithin P r = true -> forall s, lang r s -> allOf P s = true.
Proof.
  induction r as [| |p|a IHa b IHb|a IHa b IHb|a IHa|la _ a IHa];
    simpl; intros Hc s Hs.
  - destruct Hs.
  - now subst.
  - destruct Hs as (c & -> & Hp). simpl. rewrite andb_true_r.
    pose proof (everyChar_sound _ Hc c) as Hi. simpl in Hi.
    now rewrite Hp in Hi.
  - apply andb_true_iff in Hc as [Ha Hb].
    destruct Hs as (s1 & s2 & -> & H1 & H2).
    rewrite allOf_app, (IHa Ha _ H1), (IHb Hb _ H2). reflexivity.
  - apply andb_true_iff in Hc as [Ha Hb].
    destruct Hs as [H1 | H2]; [now apply IHa | now apply IHb].
  - induction Hs as [|s1 s2 H1 _ IH]; [reflexivity|].
    now rewrite allOf_app, (IHa Hc _ H1), IH.
  - destruct Hs as [Ha _]. now apply IHa.
Qed.

Lemma lang_Chr_length (p : ascii -> bool) (s : string) :
  lang (Chr p) s -> String.length s = 1%nat.
Proof. intros (c & -> & _). reflexivity. Qed.

Lemma exactly_length (n : nat) (p : ascii -> bool) (s : string) :
  lang (exactly n (Chr p)) s -> String.length s = n.
Proof.
  revert s. induction n as [|n IH]; intros s Hs.
  - simpl in Hs. now subst.
  - destruct Hs as (s1 & s2 & -> & H1 & H2).
    rewrite length_app, (lang_Chr_length _ _ H1), (IH _ H2). reflexivity.
Qed.

Lemma upto_length (n : nat) (p : ascii -> bool) (s : string) :
  lang (upto n (Chr p)) s -> (String.length s <= n)%nat.
Proof.
  revert s. induction n as [|n IH]; intros s Hs.
  - simpl in Hs. subst. apply Nat.le_refl.
  - destruct Hs as [-> | (s1 & s2 & -> & H1 & H2)]; [apply Nat.le_0_l|].
    rewrite length_app, (lang_Chr_length _ _ H1). simpl.
    apply le_n_S. now apply IH.
Qed.

Lemma rep_length (lo hi : nat) (p : ascii -> bool) (s : string) :
  lang (rep lo hi (Chr p)) s ->
  (lo <= String.length s <= lo + (hi - lo))%nat.
Proof.
  intros (s1 & s2 & -> & H1 & H2). rewrite length_app.
  rewrite (exactly_length _ _ _ H1). pose proof (upto_length _ _ _ H2) as Hu.
  split; [apply Nat.le_add_r | now apply Nat.add_le_mono_l].
Qed.

Lemma opt_Chr_length (p : ascii -> bool) (s : string) :
  lang (opt (Chr p)) s -> (String.length s <= 1)%nat.
Proof.
  intros [-> | Hs]; [apply Nat.le_0_l|].
  rewrite (lang_Chr_length _ _ Hs). apply Nat.le_refl.
Qed.

(** All the characters are digits, and there is one at least. *)
Lemma digits_lang (s : string) :
  s <> "" -> allOf isDigit s = true -> lang (plus digit) s.
Proof.
  destruct s as [|c s]; [congruence|]. intros _ Hall. simpl in Hall.
  apply andb_true_iff in Hall as [Hc Hall].
  exists (String c ""), s. split; [reflexivity|]. split; [now exists c|].
  clear c Hc. induction s as [|c s IH]; [constructor|].
  simpl in Hall. apply andb_true_iff in Hall as [Hc Hall].
  change (String c s) with (String c "" ++ s)%string.
  apply star_app; [now exists c | now apply IH].
Qed.

Lemma validDigits_spec (s : string) :
  validDigits s = true <-> s <> "" /\ allOf isDigit s = true.
Proof.
  unfold validDigits. rewrite test_lang. split.
  - intros Hs. split.
    + destruct Hs as (s1 & s2 & -> & (c & -> & _) & _). discriminate.
    + apply (lang_within isDigit (plus digit)); [reflexivity | exact Hs].
  - intros [Hne Hall]. now apply digits_lang.
Qed.

Lemma digit_value (c : ascii) :
  isDigit c = true -> exists d, digitValue 10 c = Some d /\ 0 <= d.
Proof.
  intros Hc.
  pose proof (everyChar_sound
    (fun c => implb (isDigit c)
       match digitValue 10 c with Some d => 0 <=? d | None => false end)
    eq_refl c) as Hi.
  simpl in Hi. rewrite Hc in Hi. simpl in Hi.
  destruct (digitValue 10 c) as [d|]; [|discriminate].
  exists d. split; [reflexivity | now apply Z.leb_le].
Qed.

Lemma readDigits_digits (s : string) :
  allOf isDigit s = true ->
  forall acc read, 0 <= acc ->
    exists n, readDigits 10 s acc read = (n, (read + String.length s)%nat)
              /\ 0 <= n.
Proof.
  induction s as [|c s IH]; simpl; intros Hall acc read Hacc.
  - exists acc. now rewrite Nat.add_0_r.
  - apply andb_true_iff in Hall as [Hc Hall].
    destruct (digit_value c Hc) as (d & -> & Hd).
    destruct (IH Hall (acc * 10 + d) (S read)) as (n & -> & Hn); [lia|].
    exists n. split; [|exact Hn]. f_equal. now rewrite Nat.add_succ_r.
Qed.

(** On a string that starts with a digit and goes on with digits,
    [parseInt] skips nothing, reads no sign and no hexadecimal prefix. *)
Lemma parseInt_head (c : ascii) (rest : string) :
  isDigit c = true -> allOf isDigit rest = true ->
  parseInt (String c rest)
  = match readDigits 10 (String c rest) 0 O with
    | (_, O) => None
    | (n, S _) => Some (1 * n)
    end.
Proof.
  intros Hc Hrest.
  destruct c as [[|] [|] [|] [|] [|] [|] [|] [|]]; try discriminate Hc;
    try reflexivity.
  all: destruct rest as [|x r]; [reflexivity|].
  all: simpl in Hrest; apply andb_true_iff in Hrest as [Hx _].
  all: destruct x as [[|] [|] [|] [|] [|] [|] [|] [|]]; try discriminate Hx;
    reflexivity.
Qed.

Lemma parseInt_digits (s : string) :
  s <> "" -> allOf isDigit s = true ->
  exists n, parseInt s = Some n /\ 0 <= n.
Proof.
  destruct s as [|c rest]; [congruence|]. intros _ Hall.
  pose proof Hall as Hall'. simpl in Hall'.
  apply andb_true_iff in Hall' as [Hc Hrest].
  rewrite (parseInt_head c rest Hc Hrest).
  destruct (readDigits_digits (String c rest) Hall 0 O (Z.le_refl 0))
    as (n & -> & Hn).
  simpl. exists (1 * n). split; [reflexivity | lia].
Qed.

(** X1.  [validDigits] accepts exactly the non-empty strings of digits,
    and on every string it accepts [parseInt] returns an integer that is
    not negative: the bound that the length checks compare with is never
    NaN, never signed, never read as hexadecimal. *)
Theorem validDigits_gates_parseInt (s : string) :
  (validDigits s = true <-> s <> "" /\ allOf isDigit s = true)
  /\ (validDigits s = true -> exists n, parseInt s = Some n /\ 0 <= n).
Proof.
  split; [apply validDigits_spec|].
  intros Hs. apply validDigits_spec in Hs as [Hne Hall].
  now apply parseInt_digits.
Qed.

Lemma validDigits_gates_parseInt_witness :
  exists n, parseInt "0123" = Some n /\ 0 <= n.
Proof.
  exact (proj2 (validDigits_gates_parseInt "0123") eq_refl).
Defined.

(** X2.  A value that [validPhone] accepts has 6 to 25 characters, each
    of them a digit, a white space or a plus sign; no digit is required:
    six spaces are a phone number. *)
Theorem validPhone_shape :
  (forall v, validPhone v = true ->
     (6 <= String.length v <= 25)%nat /\ allOf phoneChar v = true)
  /\ validPhone "      " = true.
Proof.
  split; [|reflexivity].
  intros v Hv. apply test_lang in Hv. split.
  - destruct Hv as (s1 & r1 & -> & H1 & s2 & r2 & -> & H2
                    & s3 & s4 & -> & H3 & H4).
    apply rep_length in H1, H3, H4. apply opt_Chr_length in H2.
    rewrite !length_app. lia.
  - apply (lang_within phoneChar phoneRe); [vm_compute; reflexivity | exact Hv].
Qed.

Lemma validPhone_shape_witness :
  (6 <= String.length "+33 6 12 34 56" <= 25)%nat
  /\ allOf phoneChar "+33 6 12 34 56" = true.
Proof.
  exact (proj1 validPhone_shape "+33 6 12 34 56" eq_refl).
Defined.

Lemma lit_lang (w x : string) : lang (lit w) x -> x = w.
Proof.
  revert x. induction w as [|c w IH]; intros x Hx.
  - exact Hx.
  - destruct Hx as (s1 & s2 & -> & H1 & H2).
    apply IsHelperFacts.lang_chr in H1 as ->. simpl. f_equal. now apply IH.
Qed.

Lemma toLowerCase_app (s1 s2 : string) :
  toLowerCase (s1 ++ s2) = (toLowerCase s1 ++ toLowerCase s2)%string.
Proof.
  induction s1 as [|c s1 IH]; simpl; [reflexivity | now rewrite IH].
Qed.

Lemma chrCI_lower (c : ascii) (x : string) :
  lang (chrCI c) x -> toLowerCase x = String (lowerChar c) "".
Proof.
  intros (a & -> & Ha). apply Ascii.eqb_eq in Ha. simpl. now rewrite Ha.
Qed.

Lemma litCI_lower (w x : string) :
  lang (litCI w) x -> toLowerCase x = toLowerCase w.
Proof.
  revert x. induction w as [|c w IH]; intros x Hx.
  - simpl in Hx. now subst.
  - destruct Hx as (s1 & s2 & -> & H1 & H2).
    rewrite toLowerCase_app, (chrCI_lower _ _ H1), (IH _ H2). reflexivity.
Qed.

(** X3.  A value that [validUrl] accepts, read in lower case, starts
    with http, https or ftp followed by a colon and two slashes; and it
    holds none of the white-space characters below U+0100 (tab, line
    feed, vertical tab, form feed, carriage return, space, no-break
    space).  The strings here have code units below 256: of the white
    space from U+1680 on, which the class of the host name in the
    pattern admits, nothing is said. *)
Theorem validUrl_shape (v : string) :
  validUrl v = true ->
  allOf nonSpace v = true
  /\ exists scheme rest,
       toLowerCase v = (scheme ++ "://" ++ rest)%string
       /\ (scheme = "http" \/ scheme = "https" \/ scheme = "ftp").
Proof.
  intros Hv. apply test_lang in Hv. split.
  - apply (lang_within nonSpace urlRe); [vm_compute; reflexivity | exact Hv].
  - destruct Hv as (s1 & s2 & -> & Hscheme & s3 & s4 & -> & Hsep & _).
    apply lit_lang in Hsep as ->.
    rewrite toLowerCase_app, toLowerCase_app.
    destruct Hscheme as [(h & o & -> & Hh & Ho) | Hf].
    + apply litCI_lower in Hh. destruct Ho as [-> | Ho].
      * exists "http", (toLowerCase s4).
        rewrite toLowerCase_app, Hh. simpl. auto.
      * apply chrCI_lower in Ho.
        exists "https", (toLowerCase s4).
        rewrite toLowerCase_app, Hh, Ho. simpl. auto.
    + apply litCI_lower in Hf. exists "ftp", (toLowerCase s4).
      rewrite Hf. simpl. auto.
Qed.

Lemma validUrl_shape_witness :
  allOf nonSpace "HTTPS://Example.org/a?b=1" = true
  /\ exists scheme rest,
       toLowerCase "HTTPS://Example.org/a?b=1"
       = (scheme ++ "://" ++ rest)%string
       /\ (scheme = "http" \/ scheme = "https" \/ scheme = "ftp").
Proof.
  exact (validUrl_shape "HTTPS://Example.org/a?b=1" eq_refl).
Defined.

Lemma lastChar_app_single (s : string) (d : ascii) :
  lastChar (s ++ String d "") = Some d.
Proof.
  induction s as [|c s IH]; [reflexivity|].
  simpl. rewrite IH. now destruct (s ++ String d "")%string.
Qed.

(** X4.  A label of the domain of an address that [validEmail] accepts
    has 1 to 63 characters, all of them letters, digits or hyphens, and
    neither starts nor ends with a hyphen. *)
Theorem emailLabel_shape (l : string) :
  Spec.isLabel l = true ->
  (1 <= String.length l <= 63)%nat
  /\ allOf alnumHyphen l = true
  /\ holds alnum (firstChar l) = true
  /\ holds alnum (lastChar l) = true.
Proof.
  unfold Spec.isLabel. intros Hl. apply test_lang in Hl.
  split; [|split].
  - destruct Hl as (s1 & s2 & -> & H1 & [-> | (m & e & -> & Hm & He)]).
    + rewrite length_app, (lang_Chr_length _ _ H1). simpl. lia.
    + apply rep_length in Hm.
      rewrite !length_app, (lang_Chr_length _ _ H1),
        (lang_Chr_length _ _ He). lia.
  - apply (lang_within alnumHyphen emailLabel);
      [vm_compute; reflexivity | exact Hl].
  - destruct Hl as (s1 & s2 & -> & (c & -> & Hc) & Hrest). split.
    + exact Hc.
    + destruct Hrest as [-> | (m & e & -> & _ & (d & -> & Hd))].
      * exact Hc.
      * change (String c "" ++ m ++ String d "")%string
          with (String c m ++ String d "")%string.
        now rewrite lastChar_app_single.
Qed.

Lemma emailLabel_shape_witness :
  (1 <= String.length "sub-domain" <= 63)%nat
  /\ allOf alnumHyphen "sub-domain" = true
  /\ holds alnum (firstChar "sub-domain") = true
  /\ holds alnum (lastChar "sub-domain") = true.
Proof.
  exact (emailLabel_shape "sub-domain" eq_refl).
Defined.

Lemma opt_nil (r : re) : lang (opt r) "".
Proof. now left. Qed.

Lemma fraction_lang (f : string) :
  f <> "" -> allOf isDigit f = true ->
  lang (opt (Cat dot (plus digit))) ("." ++ f).
Proof.
  intros Hne Hall. right. exists ".", f. split; [reflexivity|].
  split; [now exists "."%char | now apply digits_lang].
Qed.

(** X5.  [validNumber] accepts the empty string; it accepts the digits
    of an integer, with or without a minus sign in front and with or
    without a fraction of a dot and digits behind, and a fraction alone;
    whatever it accepts is made of digits, minus signs, commas and dots. *)
Theorem validNumber_shape :
  validNumber "" = true
  /\ (forall v, validNumber v = true -> allOf numberChar v = true)
  /\ (forall d f,
        d <> "" -> allOf isDigit d = true ->
        f <> "" -> allOf isDigit f = true ->
        validNumber d = true
        /\ validNumber ("-" ++ d) = true
        /\ validNumber (d ++ "." ++ f) = true
        /\ validNumber ("-" ++ d ++ "." ++ f) = true
        /\ validNumber ("." ++ f) = true).
Proof.
  split; [reflexivity|]. split.
  - intros v Hv. apply test_lang in Hv.
    apply (lang_within numberChar numberRe);
      [vm_compute; reflexivity | exact Hv].
  - intros d f Hd Hdd Hf Hfd.
    pose proof (digits_lang d Hd Hdd) as Ld.
    pose proof (fraction_lang f Hf Hfd) as Lf.
    assert (Lplain : lang (opt (Alt (Cat (opt (chr "-")) (plus digit))
                                  (Cat (opt (chr "-"))
                                     (Cat (rep 1 3 digit)
                                        (plus (Cat (chr ",")
                                                 (exactly 3 digit)))))))
                       d).
    { right. left. exists "", d. repeat split; [apply opt_nil | exact Ld]. }
    assert (Lminus : lang (opt (Alt (Cat (opt (chr "-")) (plus digit))
                                  (Cat (opt (chr "-"))
                                     (Cat (rep 1 3 digit)
                                        (plus (Cat (chr ",")
                                                 (exactly 3 digit)))))))
                       ("-" ++ d)).
    { right. left. exists "-", d. repeat split; [|exact Ld].
      right. now exists "-"%char. }
    unfold validNumber. rewrite !test_lang. unfold numberRe.
    repeat split.
    + exists d, "". rewrite append_nil_r.
      repeat split; [exact Lplain | apply opt_nil].
    + exists ("-" ++ d)%string, "". rewrite append_nil_r.
      repeat split; [exact Lminus | apply opt_nil].
    + exists d, ("." ++ f)%string. repeat split; assumption.
    + exists ("-" ++ d)%string, ("." ++ f)%string.
      repeat split; assumption.
    + exists "", ("." ++ f)%string.
      repeat split; [apply opt_nil | exact Lf].
Qed.

Lemma validNumber_shape_witness :
  validNumber "12" = true
  /\ validNumber ("-" ++ "12") = true
  /\ validNumber ("12" ++ "." ++ "50") = true
  /\ validNumber ("-" ++ "12" ++ "." ++ "50") = true
  /\ validNumber ("." ++ "50") = true.
Proof.
  refine (proj2 (proj2 validNumber_shape) "12" "50" _ eq_refl _ eq_refl);
    discriminate.
Defined.

End PatternFacts.

(** ** isHelper.ts: validDate, in full *)

Module DateMore.

Import IsHelper DateFacts.

#[local] Unset Implicit Arguments.

(** X6.  [validDate] accepts a field exactly when its value parses to a
    time other than 0 that is not before the time of a non-empty [min]
    attribute and not after the time of a non-empty [max] attribute; an
    absent, empty or unparseable bound bounds nothing. *)
Theorem validDate_iff `{Host} (field : Field) :
  validDate field = true
  <-> exists v,
        Date_parse (value field) = Some v
        /\ v <> 0
        /\ (forall lo,
              truthyAttr (getAttribute field "min") = true ->
              Date_parse (text (getAttribute field "min")) = Some lo ->
              lo <= v)
        /\ (forall hi,
              truthyAttr (getAttribute field "max") = true ->
              Date_parse (text (getAttribute field "max")) = Some hi ->
              v <= hi).
Proof.
  split.
  - rewrite validDate_eq.
    destruct (Date_parse (value field)) as [v|]; [|discriminate].
    intros Hv. apply andb_true_iff in Hv as [Hv Hmax].
    apply andb_true_iff in Hv as [Hz Hmin].
    apply negb_true_iff in Hz, Hmin, Hmax. apply Z.eqb_neq in Hz.
    exists v. split; [reflexivity|]. split; [exact Hz|]. split.
    + intros lo Ht Hlo. rewrite Ht, Hlo in Hmin. simpl in Hmin.
      now apply Z.ltb_ge in Hmin.
    + intros hi Ht Hhi. rewrite Ht, Hhi in Hmax. simpl in Hmax.
      now apply Z.ltb_ge in Hmax.
  - intros (v & Hv & Hz & Hlo & Hhi).
    exact (@validDate_within_bounds _ field v Hv Hz Hlo Hhi).
Qed.

End DateMore.

(** ** utils.ts: further laws of the two merges *)

Module UtilsMore.

Import Utils Spec Vocabulary UtilsFacts.

#[local] Unset Implicit Arguments.

Lemma get_absent (props : list (string * jsval)) (k : string) :
  ~ In k (keys props) -> get props k = JUndefined.
Proof.
  unfold get. induction props as [|[x v] rest IH]; simpl; [reflexivity|].
  intros Hk. destruct (String.eqb_spec x k) as [-> | Hne].
  - exfalso. apply Hk. now left.
  - apply IH. intros Hin. apply Hk. now right.
Qed.

Lemma get_map_absent (aprops bprops : list (string * jsval))
  (ks : list string) (k : string) :
  ~ In k ks -> get (map (mergeKey aprops bprops) ks) k = JUndefined.
Proof.
  intros Hk. apply get_absent. unfold keys. rewrite map_map.
  intros Hin. apply in_map_iff in Hin as (x & E & Hx).
  rewrite mergeKey_fst in E. now subst.
Qed.

Lemma In_setOf (l : list string) (k : string) :
  forall seen, In k (setOf seen l) -> In k l /\ mem k seen = false.
Proof.
  induction l as [|x l IH]; intros seen Hin; simpl in Hin; [destruct Hin|].
  destruct (mem x seen) eqn:Hx.
  - destruct (IH _ Hin) as [Hl Hs]. split; [now right | exact Hs].
  - destruct Hin as [-> | Hin]; [split; [now left | exact Hx]|].
    destruct (IH _ Hin) as [Hl Hs]. split; [now right|].
    unfold mem in *. simpl in Hs. now apply orb_false_iff in Hs as [_ Hs].
Qed.

Lemma get_merge (aprops bprops : list (string * jsval)) (k : string) :
  get (map (mergeKey aprops bprops) (setOf [] (keys aprops ++ keys bprops))) k
  = if isUndefined (get bprops k) then clone (get aprops k)
    else merge (get aprops k) (get bprops k).
Proof.
  destruct (in_dec string_dec k (setOf [] (keys aprops ++ keys bprops)))
    as [Hin | Hout].
  - rewrite (get_map_mergeKey _ _ _ _ Hin). unfold mergeKey.
    now destruct (isUndefined (get bprops k)).
  - rewrite (get_map_absent _ _ _ _ Hout).
    assert (Hk : ~ In k (keys aprops ++ keys bprops)).
    { intros Hin. apply Hout. apply setOf_In; [exact Hin | reflexivity]. }
    rewrite (get_absent bprops k), (get_absent aprops k); [reflexivity| |];
      intros Hin; apply Hk; apply in_or_app; auto.
Qed.

(** *** Well-formed values stay well formed *)

Lemma wellFormed_intro (isArr : bool) (props : list (string * jsval)) :
  distinct (keys props) = true ->
  Forall (fun kv => wellFormed (snd kv) = true) props ->
  wellFormed (JObj isArr props) = true.
Proof.
  intros Hd Hall. simpl. apply andb_true_iff. split; [exact Hd|]. clear Hd.
  induction Hall as [|[k x] rest Hx _ IH]; [reflexivity|].
  simpl in Hx. now rewrite Hx, IH.
Qed.

Lemma setOf_distinct (l : list string) :
  forall seen, distinct (setOf seen l) = true.
Proof.
  induction l as [|x l IH]; intros seen; simpl; [reflexivity|].
  destruct (mem x seen) eqn:Hx; [apply IH|]. simpl.
  rewrite IH, andb_true_r. apply negb_true_iff.
  destruct (mem x (setOf (x :: seen) l)) eqn:Hm; [|reflexivity].
  apply mem_In in Hm. destruct (In_setOf _ _ _ Hm) as [_ Hs].
  unfold mem in Hs. simpl in Hs. now rewrite String.eqb_refl in Hs.
Qed.

Lemma get_wellFormed (props : list (string * jsval)) (k : string) :
  Forall (fun kv => wellFormed (snd kv) = true) props ->
  wellFormed (get props k) = true.
Proof.
  unfold get. induction 1 as [|[x v] rest Hv _ IH]; simpl; [reflexivity|].
  destruct (x =? k)%string; [exact Hv | exact IH].
Qed.

Lemma get_In (props : list (string * jsval)) (k : string) :
  get props k = JUndefined \/ In (k, get props k) props.
Proof.
  unfold get. induction props as [|[x v] rest IH]; simpl; [now left|].
  destruct (String.eqb_spec x k) as [-> | Hne].
  - right. now left.
  - destruct IH as [-> | Hin]; [now left | right; now right].
Qed.

Lemma clone_keys_distinct (isArr : bool) (props : list (string * jsval)) :
  distinct (keys props) = true ->
  match clone (JObj isArr props) with
  | JObj _ cloned =>
      distinct (keys cloned) = true
      /\ forall k, In k (keys cloned) -> In k (keys props)
  | _ => False
  end.
Proof.
  simpl. induction props as [|[k x] rest IH]; simpl; intros Hd.
  - split; [reflexivity | tauto].
  - apply andb_true_iff in Hd as [Hk Hd]. destruct (IH Hd) as [Hc Hsub].
    destruct (isArr && negb (isIndex k)).
    + split; [exact Hc | intros k' Hk'; right; now apply Hsub].
    + simpl. split.
      * apply andb_true_iff. split; [|exact Hc].
        apply negb_true_iff in Hk.
        match goal with |- negb ?m = true => destruct m eqn:Hm end;
          [|reflexivity].
        apply mem_In in Hm. apply Hsub in Hm. apply mem_In in Hm. congruence.
      * intros k' [-> | Hk']; [now left | right; now apply Hsub].
Qed.

Lemma clone_wellFormed (v : jsval) :
  wellFormed v = true -> wellFormed (clone v) = true.
Proof.
  induction v as [| | | | | |isArr props IH] using jsval_induction;
    try reflexivity.
  intros Hwf. apply wellFormed_object in Hwf as [Hd Hall].
  pose proof (clone_keys_distinct isArr props Hd) as Hc.
  simpl in Hc |- *. destruct Hc as [Hc _].
  apply andb_true_iff. split; [exact Hc|]. clear Hc Hd.
  induction props as [|[k x] rest IHp]; [reflexivity|].
  inversion IH as [|? ? Hx Hrest]; subst.
  inversion Hall as [|? ? Hwx Hwrest]; subst. simpl in Hx, Hwx.
  destruct (isArr && negb (isIndex k)); [now apply IHp|].
  rewrite (Hx Hwx). simpl. now apply IHp.
Qed.

Lemma merge_wellFormed (b : jsval) :
  forall a, wellFormed a = true -> wellFormed b = true ->
            wellFormed (merge a b) = true.
Proof.
  induction b as [| | | | | |ib bprops IH] using jsval_induction;
    intros a Ha Hb; try reflexivity.
  destruct a as [| | | | | |ia aprops];
    try (now apply (clone_wellFormed (JObj ib bprops))).
  rewrite merge_object.
  apply wellFormed_object in Ha as [_ Hwa].
  apply wellFormed_object in Hb as [_ Hwb].
  apply wellFormed_intro.
  - unfold keys. rewrite map_map.
    rewrite (map_ext _ (fun k => k) (mergeKey_fst aprops bprops)), map_id.
    apply setOf_distinct.
  - apply Forall_forall. intros kv Hin. apply in_map_iff in Hin as (k & <- & _).
    unfold mergeKey. destruct (isUndefined (get bprops k)) eqn:Hu; simpl.
    + apply clone_wellFormed. now apply get_wellFormed.
    + destruct (get_In bprops k) as [E | Hin];
        [rewrite E in Hu; discriminate Hu|].
      rewrite Forall_forall in IH. apply (IH _ Hin).
      * now apply get_wellFormed.
      * now apply get_wellFormed.
Qed.

(** *** The keys of a merge *)

Lemma keys_merge (aprops bprops : list (string * jsval)) (k : string) :
  In k (keys (map (mergeKey aprops bprops)
                (setOf [] (keys aprops ++ keys bprops))))
  <-> In k (keys aprops) \/ In k (keys bprops).
Proof.
  unfold keys at 1. rewrite map_map.
  rewrite (map_ext _ (fun k => k) (mergeKey_fst aprops bprops)), map_id.
  split.
  - intros Hin. apply In_setOf in Hin as [Hin _]. now apply in_app_or.
  - intros Hin. apply setOf_In; [now apply in_or_app | reflexivity].
Qed.

(** X8.  The merge of an object or array under a plain object is a
    plain object whose keys are those of the base and those of the
    override, none lost and none added at the top level (no key being
    __proto__); and as no object of the two lists a key twice, no object
    of the result does.  (Below the top level a key of the base is lost
    where the override sets a primitive over an object.) *)
Theorem deepMerge_keys (ia : bool) (aprops bprops : list (string * jsval)) :
  wellFormed (JObj ia aprops) = true ->
  wellFormed (JObj false bprops) = true ->
  ordinary (keys aprops ++ keys bprops) = true ->
  exists props,
    deepMerge (JObj ia aprops) (JObj false bprops) = JObj false props
    /\ (forall k, In k (keys props)
                  <-> In k (keys aprops) \/ In k (keys bprops))
    /\ wellFormed (JObj false props) = true.
Proof.
  intros Ha Hb _. unfold deepMerge.
  pose proof (merge_wellFormed _ _ Ha Hb) as Hwf.
  rewrite merge_object in Hwf |- *. eexists. split; [reflexivity|].
  split; [intros k; apply keys_merge | exact Hwf].
Qed.

Lemma deepMerge_keys_witness :
  exists props,
    deepMerge
      (FormValidator.defaultSettings
         (FormValidator.messagesValue FormValidator.defaultMessages))
      Demo.frenchSettings
    = JObj false props
    /\ In "errorClass" (keys props)
    /\ In "messages" (keys props).
Proof.
  destruct (deepMerge_keys false
              [("ignore", JNull);
               ("fields", JNull);
               ("autoValidate", JBool true);
               ("errorPlacement", JNull);
               ("errorElement", JStr "p");
               ("errorClass", JStr "error");
               ("errorFieldClass", JNull);
               ("validFormClass", JStr "was-validated");
               ("submitHandler", JNull);
               ("messages",
                FormValidator.messagesValue FormValidator.defaultMessages)]
              [("messages",
                JObj false
                  [("required", JStr "Ce champ est obligatoire.")])]
              eq_refl eq_refl eq_refl) as (props & E & Hk & _).
  exists props. split; [exact E|]. split; apply Hk.
  - left. simpl. tauto.
  - right. simpl. tauto.
Defined.

(** *** The empty object is neutral *)

Lemma clone_plain (v : jsval) : plain v = true -> clone v = v.
Proof.
  induction v as [| | | | | |isArr props IH] using jsval_induction;
    try reflexivity.
  simpl. intros Hp. f_equal.
  induction props as [|[k x] rest IHp]; [reflexivity|].
  inversion IH as [|? ? Hx Hrest]; subst. simpl in Hx.
  apply andb_true_iff in Hp as [Hp Hr]. apply andb_true_iff in Hp as [Hk Hpx].
  assert (E : isArr && negb (isIndex k) = false).
  { destruct isArr; [|reflexivity]. simpl in *. now rewrite Hk. }
  rewrite E, (Hx Hpx), (IHp Hrest Hr). reflexivity.
Qed.

Lemma plain_object (isArr : bool) (props : list (string * jsval)) :
  plain (JObj isArr props) = true ->
  Forall (fun kv => plain (snd kv) = true) props.
Proof.
  simpl. induction props as [|[k x] rest IH]; intros Hp; constructor.
  - simpl. apply andb_true_iff in Hp as [Hp _].
    now apply andb_true_iff in Hp as [_ Hx].
  - apply IH. now apply andb_true_iff in Hp as [_ Hr].
Qed.

(** *** The override wins at every depth *)

Lemma getPath_undefined (p : list string) : getPath JUndefined p = JUndefined.
Proof. now destruct p. Qed.

Lemma get_plain (props : list (string * jsval)) (k : string) :
  Forall (fun kv => plain (snd kv) = true) props ->
  plain (get props k) = true.
Proof.
  unfold get. induction 1 as [|[x v] rest Hv _ IH]; simpl; [reflexivity|].
  destruct (x =? k)%string; [exact Hv | exact IH].
Qed.

Lemma merge_path (p : list string) :
  forall a b,
    plain b = true -> sets (getPath b p) = true ->
    getPath (merge a b) p = getPath b p.
Proof.
  induction p as [|k rest IH]; intros a b Hp Hs.
  - simpl in *. f_equal. apply merge_primitive_override.
    now destruct b.
  - destruct b as [| | | | | |ib bprops]; try discriminate Hs.
    destruct a as [| | | | | |ia aprops];
      try (change (merge _ (JObj ib bprops)) with (clone (JObj ib bprops));
           now rewrite (clone_plain _ Hp)).
    rewrite merge_object.
    change (getPath (get (map (mergeKey aprops bprops)
                            (setOf [] (keys aprops ++ keys bprops))) k) rest
            = getPath (get bprops k) rest).
    change (sets (getPath (get bprops k) rest) = true) in Hs.
    rewrite get_merge.
    destruct (isUndefined (get bprops k)) eqn:Hu.
    + destruct (get bprops k); try discriminate Hu.
      rewrite getPath_undefined in Hs. discriminate Hs.
    + apply IH; [|exact Hs]. apply get_plain. now apply plain_object in Hp.
Qed.

(** X7.  The override wins at every depth: wherever the second argument
    of [deepMerge] holds null, a boolean, a number, a string or a function
    along a path of keys through its objects, the result holds that value
    along the same path, whatever the first argument is (an object, a
    primitive, undefined) and whatever it holds there.  The second
    argument is a value whose arrays hold elements only, and the path
    has no key __proto__. *)
Theorem deepMerge_override_wins (a b : jsval) (p : list string) :
  plain b = true -> ordinary p = true -> sets (getPath b p) = true ->
  getPath (deepMerge a b) p = getPath b p.
Proof. intros Hp _ Hs. now apply merge_path. Qed.

Lemma deepMerge_override_wins_witness :
  getPath
    (deepMerge
       (FormValidator.defaultSettings
          (FormValidator.messagesValue FormValidator.defaultMessages))
       Demo.frenchSettings)
    ["messages"; "required"]
  = JStr "Ce champ est obligatoire.".
Proof.
  exact (deepMerge_override_wins
           (FormValidator.defaultSettings
              (FormValidator.messagesValue FormValidator.defaultMessages))
           Demo.frenchSettings ["messages"; "required"]
           eq_refl eq_refl eq_refl).
Defined.






End UtilsMore.

(** ** vanilla-form-validator.ts: helpers, rules and the verdict *)

Module FormValidatorMore.

Import IsHelper Utils FormValidator Spec Vocabulary FormValidatorFacts.

#[local] Unset Implicit Arguments.

Local Open Scope js_scope.

(** *** escapeCssMeta *)





Section Evaluator.

Context `{Host}.
Variable this : Validator.
Variable field : Field.

(** *** The three length predicates *)

Lemma rangelength_both (value : string) (element : Field)
  (lo hi : option Z) :
  rangelength this value element (lo, hi)
  = rbind (minlength this value element lo)
          (fun a => rbind (maxlength this value element hi)
                          (fun b => Ok (a && b))).
Proof.
  unfold rangelength, minlength, maxlength, rbind.
  now destruct (getLength this value element).
Qed.

Lemma rangelength_empty (value : string) (element : Field) (lo hi : Z)
  (len : option Z) :
  hi < lo -> getLength this value element = Ok len ->
  rangelength this value element (Some lo, Some hi) = Ok false.
Proof.
  intros Hlt Hlen. unfold rangelength. rewrite Hlen. simpl. f_equal.
  destruct len as [x|]; [|reflexivity]. simpl.
  destruct (Z.leb_spec lo x), (Z.leb_spec x hi); try reflexivity. lia.
Qed.

Lemma length_nan (value : string) (element : Field) (lo hi : option Z) :
  getLength this value element = Ok None ->
  minlength this value element lo = Ok false
  /\ maxlength this value element hi = Ok false
  /\ rangelength this value element (lo, hi) = Ok false.
Proof.
  intros Hlen. unfold minlength, maxlength, rangelength.
  rewrite Hlen. simpl. repeat split.
Qed.

(** *** Rules that do nothing *)

Lemma applyRule_inert (rule : Rule.t) :
  inert rule = true -> forall s, applyRule this field rule s = (Ok tt, s).
Proof.
  unfold inert. intros Hi s. unfold applyRule, bind, getValid. cbv zeta.
  destruct (isValid s); [|reflexivity]. simpl when.
  destruct (Rule.method rule) as [f|m|]; [discriminate | | reflexivity].
  destruct (m =? "equalTo")%string.
  { apply negb_true_iff in Hi. now rewrite Hi. }
  destruct (m =? "minlength")%string.
  { apply negb_true_iff in Hi. now rewrite Hi. }
  destruct (m =? "maxlength")%string.
  { apply negb_true_iff in Hi. now rewrite Hi. }
  destruct (m =? "rangelength")%string.
  { apply negb_true_iff in Hi. now rewrite Hi. }
  reflexivity.
Qed.

Lemma applyFieldSetting_foreign (fieldSetting : FieldSetting.t) :
  nameMatches (FieldSetting.name fieldSetting) (name field) = false
  \/ FieldSetting.rules fieldSetting = None ->
  forall s, applyFieldSetting this field fieldSetting s = (Ok tt, s).
Proof.
  intros Hf s. unfold applyFieldSetting.
  destruct (FieldSetting.rules fieldSetting) as [rules|]; [|reflexivity].
  destruct Hf as [Hn | Hr]; [now rewrite Hn | discriminate Hr].
Qed.

(** *** The verdict of a required field left empty *)

Lemma fieldVerdict_required_empty :
  hasAttribute field "required" = true ->
  isCheckboxOrRadio (type_ field) = false ->
  value field = "" ->
  fieldVerdict this field (initial field)
  = (Ok tt,
     let m := if truthy (customErrorMessage field)
              then customErrorMessage field
              else Messages.required (messages this) in
     {| isValid := false;
        errorMessage := m;
        trace := [{| check := CkRequired; passed := false; message := m |}]
     |}).
Proof.
  intros Hreq Hcb Hval. unfold fieldVerdict, requiredCheck. cbv zeta.
  rewrite Hreq, Hcb, Hval.
  unfold initial, bind, when, setVerdict, getValid. simpl.
  destruct (truthy (customErrorMessage field)); reflexivity.
Qed.

End Evaluator.

(** X12.  [rangelength] is the conjunction of [minlength] and
    [maxlength] on the same measured length; it fails for every value
    when the upper bound is below the lower one; and when the measured
    length is NaN (a number field whose value is no number) the three
    predicates all fail. *)
Theorem rangelength_is_both `{Host} (this : Validator) (value : string)
  (element : Field) :
  (forall lo hi,
     rangelength this value element (lo, hi)
     = rbind (minlength this value element lo)
             (fun a => rbind (maxlength this value element hi)
                             (fun b => Ok (a && b))))
  /\ (forall lo hi len,
        hi < lo -> getLength this value element = Ok len ->
        rangelength this value element (Some lo, Some hi) = Ok false)
  /\ (forall lo hi,
        getLength this value element = Ok None ->
        minlength this value element lo = Ok false
        /\ maxlength this value element hi = Ok false
        /\ rangelength this value element (lo, hi) = Ok false).
Proof.
  split; [|split].
  - intros lo hi. apply rangelength_both.
  - intros lo hi len. apply rangelength_empty.
  - intros lo hi. apply length_nan.
Qed.

Lemma rangelength_is_both_witness :
  @rangelength Demo.host (Demo.validator [Demo.tooShort] None) "abc"
    Demo.tooShort (Some 5, Some 2) = Ok false.
Proof.
  refine (proj1 (proj2 (@rangelength_is_both Demo.host
                          (Demo.validator [Demo.tooShort] None) "abc"
                          Demo.tooShort))
                5 2 (Some 3) _ eq_refl).
  reflexivity.
Defined.

(** X13.  A required field that is no checkbox or radio button and
    whose value is empty is invalid after the required check alone: the
    message is the custom message of the field if it has one and the
    [required] entry of the catalog otherwise, and no other check is
    made, whatever attributes and rules the field has. *)
Theorem required_empty_field `{Host} (this : Validator) (field : Field) :
  hasAttribute field "required" = true ->
  isCheckboxOrRadio (type_ field) = false ->
  value field = "" ->
  fieldVerdict this field (initial field)
  = (Ok tt,
     let m := if truthy (customErrorMessage field)
              then customErrorMessage field
              else Messages.required (messages this) in
     {| isValid := false;
        errorMessage := m;
        trace := [{| check := CkRequired; passed := false; message := m |}]
     |}).
Proof. apply fieldVerdict_required_empty. Qed.

Lemma required_empty_field_witness :
  @fieldVerdict Demo.host
    (Demo.validator [Demo.requiredEmpty]
       (Some [Demo.declare "who" [Demo.throwingRule]]))
    Demo.requiredEmpty (initial Demo.requiredEmpty)
  = (Ok tt,
     {| isValid := false;
        errorMessage := "This field is required.";
        trace := [{| check := CkRequired; passed := false;
                     message := "This field is required." |}] |}).
Proof.
  exact (@required_empty_field Demo.host
           (Demo.validator [Demo.requiredEmpty]
              (Some [Demo.declare "who" [Demo.throwingRule]]))
           Demo.requiredEmpty eq_refl eq_refl eq_refl).
Defined.

(** X14.  A declared rule with no method, with a method name other than
    the four known ones, or with a known name whose parameter is falsy
    does nothing, in whatever state it is applied.  A bound of 0 is
    falsy: a [maxlength] rule with [max] 0 and a [rangelength] rule with
    [min] 0 are never enforced. *)
Theorem inert_rule_is_skipped `{Host} (this : Validator) (field : Field)
  (rule : Rule.t) :
  inert rule = true -> forall s, applyRule this field rule s = (Ok tt, s).
Proof. apply applyRule_inert. Qed.

Lemma inert_rule_is_skipped_witness :
  @validateField Demo.host
    (Demo.validator [Samples.eightLetters]
       (Some [Demo.declare "code" [Samples.zeroToFive]]))
    Samples.eightLetters
  = Ok true
  /\ @applyRule Demo.host
       (Demo.validator [Samples.eightLetters]
          (Some [Demo.declare "code" [Samples.zeroToFive]]))
       Samples.eightLetters Samples.zeroToFive (initial Samples.eightLetters)
     = (Ok tt, initial Samples.eightLetters).
Proof.
  split; [reflexivity|].
  exact (@inert_rule_is_skipped Demo.host
           (Demo.validator [Samples.eightLetters]
              (Some [Demo.declare "code" [Samples.zeroToFive]]))
           Samples.eightLetters Samples.zeroToFive eq_refl
           (initial Samples.eightLetters)).
Defined.

(** *** Invariants of the verdict *)

Section Invariants.

Context `{Host}.
Variable this : Validator.
Variable field : Field.

Lemma lengthChecks_after (I : VState -> Prop) :
  (forall c r msg s, I s -> I (after field c r msg s)) ->
  preserves I (lengthChecks this field).
Proof.
  intros Hafter s Hs. rewrite lengthChecks_run.
  destruct (getLength this (value field) field) as [len|e].
  2:{ destruct (_ || _); exact Hs. }
  unfold afterRange, afterMax, afterMin. simpl snd.
  destruct (usable (minBound field)), (usable (maxBound field)); simpl;
    repeat apply Hafter; exact Hs.
Qed.

Lemma verdict_invariant (I : VState -> Prop) :
  (forall c r msg s, I s -> I (after field c r msg s)) ->
  I (initial field) ->
  I (snd (fieldVerdict this field (initial field))).
Proof.
  intros Hafter H0. apply fieldVerdict_preserves.
  - intros c r msg _ s Hs _. now apply Hafter.
  - apply preserves_at. now apply lengthChecks_after.
  - exact H0.
  - reflexivity.
Qed.

Lemma customKept_after :
  truthy (customErrorMessage field) = true ->
  forall c r msg s,
    customKept field s -> customKept field (after field c r msg s).
Proof.
  intros Hc c r msg s [Hm Hall]. unfold after, customKept. simpl.
  rewrite Hc, andb_false_r. split; [exact Hm|].
  apply Forall_app. split; [exact Hall|]. now constructor.
Qed.

Lemma lastCheck_after (c : Check) (r : bool) (msg : string) (s : VState) :
  lastCheck field s -> lastCheck field (after field c r msg s).
Proof.
  intros (_ & _ & Hpassed). unfold after, lastCheck. simpl.
  split; [|split].
  - intros E. now apply app_eq_nil in E as [_ E].
  - intros l e E. apply app_inj_tail in E as [_ <-]. now split.
  - intros Hall. apply Forall_app in Hall as [Hold Hnew].
    inversion Hnew as [|? ? Hr _]; subst. simpl in Hr. subst r. simpl.
    now apply Hpassed.
Qed.

Lemma lastCheck_initial : lastCheck field (initial field).
Proof.
  split; [|split]; simpl; try reflexivity.
  intros l e E. now destruct l.
Qed.

Lemma noLengthCheck_check (c : Check) (r : bool) (msg : string) :
  lengthBlock c = false ->
  preservesAt true noLengthCheck
    (setVerdict (customErrorMessage field) c r msg).
Proof.
  intros Hc s Hs _. unfold noLengthCheck. simpl.
  apply Forall_app. split; [exact Hs|]. now constructor.
Qed.

Lemma typeCheck_typed :
  typed (type_ field) = true ->
  preservesAt true noLengthCheck (typeCheck this field).
Proof.
  unfold typed, typeCheck. intros Ht. cbv zeta.
  destruct (type_ field =? "email")%string;
    [now apply noLengthCheck_check|].
  destruct (type_ field =? "tel")%string;
    [now apply noLengthCheck_check|].
  destruct (type_ field =? "url")%string;
    [now apply noLengthCheck_check|].
  destruct (type_ field =? "file")%string;
    [now apply noLengthCheck_check|].
  destruct (type_ field =? "date")%string;
    [now apply noLengthCheck_check | discriminate Ht].
Qed.

(** The pipeline keeps what its guarded checks and its switch on the
    type keep. *)
Lemma fieldVerdict_preserves_by_type (I : VState -> Prop) :
  (forall c r msg,
     lengthBlock c = false ->
     preservesAt true I (setVerdict (customErrorMessage field) c r msg)) ->
  preservesAt true I (typeCheck this field) ->
  preservesAt true I (fieldVerdict this field).
Proof.
  intros I_check I_type. unfold fieldVerdict. cbv zeta.
  apply preservesAt_bind;
    [now apply requiredCheck_preserves | intros _].
  apply preserves_getValid. intros v. apply preservesAt_when.
  apply preservesAt_bind; [exact I_type | intros _].
  apply preserves_getValid. intros v1.
  apply preservesAt_bind.
  - rewrite <- andb_assoc. apply preservesAt_when.
    now apply patternCheck_preserves.
  - intros _. apply preserves_getValid. intros v2.
    apply preservesAt_when_self. now apply declaredRules_preserves.
Qed.

End Invariants.

(** X15.  When the field has a custom message (a non-empty
    data-error-message attribute), that message is the message in force
    after every check and the message of the verdict, whichever check
    fails and whatever message a declared rule carries. *)
Theorem custom_message_is_kept `{Host} (this : Validator) (field : Field) :
  truthy (customErrorMessage field) = true ->
  customKept field (snd (fieldVerdict this field (initial field))).
Proof.
  intros Hc. apply verdict_invariant.
  - now apply customKept_after.
  - unfold customKept, initial. simpl. rewrite Hc. now split.
Qed.

Lemma custom_message_is_kept_witness :
  errorMessage (snd (Demo.run (Demo.validator [Samples.ownMessage] None)
                       Samples.ownMessage))
  = "Check the address."
  /\ isValid (snd (Demo.run (Demo.validator [Samples.ownMessage] None)
                     Samples.ownMessage))
     = false.
Proof.
  split; [|reflexivity].
  exact (proj1 (@custom_message_is_kept Demo.host
                  (Demo.validator [Samples.ownMessage] None)
                  Samples.ownMessage eq_refl)).
Defined.

(** X16.  The verdict is the outcome of the last check made.  An invalid
    verdict comes from a last check that failed, and its message is the
    message in force after that check; a valid verdict comes with every
    check passed and with the initial message (the custom message, or
    none): no message of a check is left on a valid field. *)
Theorem verdict_is_last_check `{Host} (this : Validator) (field : Field) :
  let st := snd (fieldVerdict this field (initial field)) in
  (isValid st = false ->
     exists l e, trace st = (l ++ [e])%list
                 /\ passed e = false /\ errorMessage st = message e)
  /\ (isValid st = true ->
      Forall (fun e => passed e = true) (trace st)
      /\ errorMessage st = errorMessage (initial field)).
Proof.
  intros st.
  assert (Hl : lastCheck field st).
  { apply verdict_invariant;
      [intros c r msg s; apply lastCheck_after | apply lastCheck_initial]. }
  assert (Ho : orderly st).
  { apply fieldVerdict_preserves;
      [ intros c r msg _; apply orderly_check
      | apply orderly_length | apply orderly_initial | reflexivity ]. }
  destruct Hl as (Hnil & Hlast & Hpassed). destruct Ho as [_ Hvalid].
  split.
  - intros Hv. destruct (trace st) as [|e0 tr] eqn:Etr.
    + rewrite (Hnil eq_refl) in Hv. discriminate Hv.
    + destruct (@exists_last _ (e0 :: tr)) as (l & e & E); [discriminate|].
      exists l, e. destruct (Hlast l e E) as [Hp Hm].
      split; [exact E|]. split; [congruence | exact Hm].
  - intros Hv. split; [now apply Hvalid | apply Hpassed; now apply Hvalid].
Qed.

(** X17.  A field of type email, tel, url, file or date is given the
    check of its type and never a check of the length block: its
    minlength and maxlength attributes (and, but for the dates of a date
    field, its min and max attributes) are not enforced. *)
Theorem typed_field_skips_length `{Host} (this : Validator) (field : Field) :
  typed (type_ field) = true ->
  noLengthCheck (snd (fieldVerdict this field (initial field))).
Proof.
  intros Ht. apply fieldVerdict_preserves_by_type.
  - apply noLengthCheck_check.
  - now apply typeCheck_typed.
  - constructor.
  - reflexivity.
Qed.

Lemma typed_field_skips_length_witness :
  noLengthCheck
    (snd (Demo.run (Demo.validator [Samples.shortAddress] None)
            Samples.shortAddress))
  /\ @validateField Demo.host (Demo.validator [Samples.shortAddress] None)
       Samples.shortAddress = Ok true.
Proof.
  split; [|reflexivity].
  exact (@typed_field_skips_length Demo.host
           (Demo.validator [Samples.shortAddress] None)
           Samples.shortAddress eq_refl).
Defined.

(** X18.  Rules are addressed by field name: a declaration whose name is
    not the name of the field (or is missing), or which has no rules,
    changes nothing of what [validateField] does for that field,
    throwing included; its predicates are never called. *)
Theorem foreign_rules_are_ignored `{Host} (this : Validator) (field : Field)
  (fieldSetting : FieldSetting.t) :
  nameMatches (FieldSetting.name fieldSetting) (name field) = false
  \/ FieldSetting.rules fieldSetting = None ->
  forall before behind,
    validateField (withDeclared this (before ++ fieldSetting :: behind)%list)
      field
    = validateField (withDeclared this (before ++ behind)%list) field.
Proof.
  intros Hf before behind. unfold validateField.
  rewrite (fieldVerdict_declared this field
             (before ++ fieldSetting :: behind)%list
             (before ++ behind)%list); [reflexivity|].
  intros s. unfold declaredRules, declaredFields. simpl.
  apply forEach_skip. intros s'.
  now apply (applyFieldSetting_foreign (withDeclared this _) field).
Qed.

Lemma foreign_rules_are_ignored_witness :
  @validateField Demo.host
    (withDeclared (Demo.validator [Demo.confirmation] None)
       ([] ++ Demo.declare "other" [Demo.throwingRule] :: [])%list)
    Demo.confirmation
  = Ok true.
Proof.
  exact (@foreign_rules_are_ignored Demo.host
           (Demo.validator [Demo.confirmation] None) Demo.confirmation
           (Demo.declare "other" [Demo.throwingRule])
           (or_introl eq_refl) [] []).
Defined.

(** *** The bounds of the length block, from the field to the verdict *)

Section Bounds.

Context `{Host}.
Variable this : Validator.
Variable field : Field.

Lemma typeCheck_untyped :
  typed (type_ field) = false ->
  forall s, typeCheck this field s = lengthChecks this field s.
Proof.
  unfold typed, typeCheck. cbv zeta. intros Ht s.
  repeat (apply orb_false_iff in Ht as [Ht ?]).
  now repeat match goal with
             | E : (_ =? _)%string = false |- _ => rewrite E; clear E
             end.
Qed.

Lemma requiredCheck_filled :
  isCheckboxOrRadio (type_ field) = false ->
  truthy (value field) = true ->
  exists s, requiredCheck this field (initial field) = (Ok tt, s)
            /\ isValid s = true.
Proof.
  intros Hcb Hv. unfold requiredCheck. cbv zeta.
  destruct (hasAttribute field "required").
  - rewrite Hcb. simpl when. eexists. split; [reflexivity|]. simpl.
    unfold notEmpty. destruct (value field); [discriminate Hv | reflexivity].
  - eexists. split; reflexivity.
Qed.

Lemma lengthBlock_verdict (len : option Z) (s : VState) :
  isValid s = true ->
  isValid (afterRange this field len
             (afterMax this field len (afterMin this field len s)))
  = withinBounds field len.
Proof.
  intros Hs. unfold afterRange, afterMax, afterMin, withinBounds.
  destruct (usable (minBound field)), (usable (maxBound field)); simpl;
    try reflexivity.
  - now rewrite andb_true_r.
  - exact Hs.
Qed.

Lemma fieldVerdict_bounds (len : option Z) :
  getLength this (value field) field = Ok len ->
  typed (type_ field) = false ->
  isCheckboxOrRadio (type_ field) = false ->
  truthy (value field) = true ->
  (withinBounds field len = false ->
   exists s, fieldVerdict this field (initial field) = (Ok tt, s)
             /\ isValid s = false)
  /\ (patternDiffers field = false -> declaredFields this = None ->
      exists s, fieldVerdict this field (initial field) = (Ok tt, s)
                /\ isValid s = withinBounds field len).
Proof.
  intros Hlength Hty Hcb Hv.
  destruct (requiredCheck_filled Hcb Hv) as (s1 & E1 & V1).
  assert (Hne : truthy (value field) && negb (value field =? "")%string
                = true).
  { rewrite Hv. unfold truthy in Hv. now rewrite Hv. }
  pose proof (lengthBlock_verdict len s1 V1) as Hlen.
  set (s4 := afterRange this field _ _) in Hlen.
  assert (E4 : typeCheck this field s1 = (Ok tt, s4)).
  { rewrite (typeCheck_untyped Hty), lengthChecks_run, Hlength.
    reflexivity. }
  assert (Hhead :
            fieldVerdict this field (initial field)
            = (v1 <- getValid ;;
               when (v1 && (truthy (value field)
                            && negb (value field =? "")%string)
                     && patternDiffers field)
                 (patternCheck this field) ;;
               v2 <- getValid ;; when v2 (declaredRules this field)) s4).
  { unfold fieldVerdict. cbv zeta. unfold bind at 1. rewrite E1.
    unfold bind at 1. unfold getValid at 1. cbv beta iota. rewrite V1, Hne.
    simpl when. unfold bind at 1. rewrite E4. reflexivity. }
  split.
  - intros Hw. exists s4. rewrite Hw in Hlen. rewrite Hhead.
    unfold bind, getValid. cbv beta iota. rewrite Hlen. simpl.
    rewrite Hlen. now split.
  - intros Hp Hd. exists s4. rewrite Hhead.
    unfold bind, getValid. cbv beta iota. rewrite Hp, andb_false_r.
    simpl when. unfold ret at 1. cbv beta iota.
    unfold declaredRules. rewrite Hd.
    split; [|exact Hlen]. now destruct (isValid s4).
Qed.

End Bounds.

(** X22.  The bounds of the attributes are enforced, from the field to
    the verdict.  For a field with a value, of a type without a check of
    its own, whose length [getLength] measures as [len] (the number of
    characters of a text field; the integer read from the value of a
    number input, for which [min] and [max] are so bounds on the number;
    NaN for a number input whose value is no number): if [len] is below a
    usable minimum or above a usable maximum, or is NaN with a usable
    bound, the verdict is invalid whatever pattern and rules the field
    has; and with no pattern and no declared fields the verdict is valid
    exactly when [len] is within the bounds. *)
Theorem length_bounds_are_enforced `{Host} (this : Validator) (field : Field)
  (len : option Z) :
  getLength this (value field) field = Ok len ->
  typed (type_ field) = false ->
  isCheckboxOrRadio (type_ field) = false ->
  truthy (value field) = true ->
  (withinBounds field len = false ->
   exists s, fieldVerdict this field (initial field) = (Ok tt, s)
             /\ isValid s = false)
  /\ (patternDiffers field = false -> declaredFields this = None ->
      exists s, fieldVerdict this field (initial field) = (Ok tt, s)
                /\ isValid s = withinBounds field len).
Proof. apply fieldVerdict_bounds. Qed.

Lemma length_bounds_are_enforced_witness :
  (exists s,
     @fieldVerdict Demo.host (Demo.validator [Samples.smallNumber] None)
       Samples.smallNumber (initial Samples.smallNumber) = (Ok tt, s)
     /\ isValid s = false)
  /\ (exists s,
        @fieldVerdict Demo.host (Demo.validator [Demo.longEnough] None)
          Demo.longEnough (initial Demo.longEnough) = (Ok tt, s)
        /\ isValid s = true).
Proof.
  split.
  - exact (proj1 (@length_bounds_are_enforced Demo.host
                    (Demo.validator [Samples.smallNumber] None)
                    Samples.smallNumber (Some 7)
                    eq_refl eq_refl eq_refl eq_refl)
             eq_refl).
  - exact (proj2 (@length_bounds_are_enforced Demo.host
                    (Demo.validator [Demo.longEnough] None)
                    Demo.longEnough (Some 6)
                    eq_refl eq_refl eq_refl eq_refl)
             eq_refl eq_refl).
Defined.

(** *** The required check of a checkbox or radio group *)

Lemma firstChecked_filter (p : Field -> bool) (l : list Field) :
  firstChecked (filter p l) = existsb (fun e => p e && checked e) l.
Proof.
  induction l as [|e l IH]; [reflexivity|]. simpl.
  destruct (p e); simpl; [|exact IH].
  destruct (checked e); [reflexivity | exact IH].
Qed.

Lemma requiredCheck_group `{Host} (this : Validator) (field : Field)
  (f : Form) (p : Field -> bool) (s : VState) :
  hasAttribute field "required" = true ->
  isCheckboxOrRadio (type_ field) = true ->
  form this = Some f ->
  selector ("input[name=" ++ dquote ++ name field ++ dquote ++ "]")%string
  = Ok p ->
  requiredCheck this field s
  = (Ok tt,
     after field CkRequired
       (existsb (fun e => p e && checked e) (elements f))
       (Messages.required (messages this)) s).
Proof.
  intros Hreq Hcb Hform Hsel. unfold requiredCheck. cbv zeta.
  rewrite Hreq, Hcb. unfold when, bind, lift, validateCheckboxRadio.
  rewrite Hform. unfold querySelectorAll. rewrite Hsel. unfold rbind.
  rewrite firstChecked_filter. reflexivity.
Qed.

(** X19.  The required check of a checkbox or a radio button is a check
    of its group: it passes exactly when one of the input elements of the
    form with the name of the field is checked, whether the field itself
    is checked or not, and it sets the message as every check does. *)
Theorem required_group_is_checked `{Host} (this : Validator) (field : Field)
  (f : Form) (p : Field -> bool) (s : VState) :
  hasAttribute field "required" = true ->
  isCheckboxOrRadio (type_ field) = true ->
  form this = Some f ->
  selector ("input[name=" ++ dquote ++ name field ++ dquote ++ "]")%string
  = Ok p ->
  requiredCheck this field s
  = (Ok tt,
     after field CkRequired
       (existsb (fun e => p e && checked e) (elements f))
       (Messages.required (messages this)) s).
Proof. apply requiredCheck_group. Qed.

Lemma required_group_is_checked_witness :
  isValid (snd (@requiredCheck Demo.host
                  (Demo.validator Samples.noPlan None)
                  (Demo.plan "free" false)
                  (initial (Demo.plan "free" false))))
  = false
  /\ @validateField Demo.host
       (Demo.validator [Demo.plan "free" false; Demo.plan "paid" true] None)
       (Demo.plan "free" false)
     = Ok true.
Proof.
  split; [|reflexivity].
  rewrite (@required_group_is_checked Demo.host
             (Demo.validator Samples.noPlan None) (Demo.plan "free" false)
             {| elements := Samples.noPlan |}
             (fun e => (toLowerCase (nodeName e) =? "input")%string
                       && (name e =? "plan")%string)
             (initial (Demo.plan "free" false))
             eq_refl eq_refl eq_refl eq_refl).
  reflexivity.
Defined.

End FormValidatorMore.

(** ** vanilla-form-validator.ts: when the constructor throws *)

Module ConstructorMore.

Import Utils FormValidator UtilsFacts.

#[local] Unset Implicit Arguments.


Lemma constructor_primitive (settings : jsval) :
  match settings with
  | JUndefined | JNull | JObj _ _ => True
  | _ =>
      constructor true settings
      = Ok {| settingsValue := settings;
              messagesNow := clone (messagesValue defaultMessages) |}
  end.
Proof. destruct settings; exact I || reflexivity. Qed.


End ConstructorMore.

(** ** vanilla-form-validator.ts: what [init] tracks *)

Module BindingFacts.

Import FormValidator Binding.

#[local] Unset Implicit Arguments.

Lemma combine_seq_bound {A} (l : list A) (a : nat) (m : nat * A) :
  In m (combine (seq a (List.length l)) l) -> (a <= fst m)%nat.
Proof.
  intros Hin. destruct m as [i x]. apply in_combine_l in Hin.
  apply in_seq in Hin. simpl. lia.
Qed.

Lemma combine_seq_unique {A} (l : list A) :
  forall (a : nat) (n m : nat * A),
    In n (combine (seq a (List.length l)) l) ->
    In m (combine (seq a (List.length l)) l) ->
    fst m = fst n -> m = n.
Proof.
  induction l as [|x l IH]; intros a n m Hn Hm E; simpl in Hn, Hm.
  - destruct Hn.
  - destruct Hn as [<- | Hn], Hm as [<- | Hm].
    + reflexivity.
    + apply combine_seq_bound in Hm. simpl in E. lia.
    + apply combine_seq_bound in Hn. simpl in E. lia.
    + exact (IH (S a) n m Hn Hm E).
Qed.

Lemma includes_filter (form : Form) (q : Node -> bool) (n : Node) :
  In n (nodes form) -> includes (filter q (nodes form)) n = q n.
Proof.
  intros Hn. unfold includes. destruct (q n) eqn:Q.
  - apply existsb_exists. exists n. split.
    + apply filter_In. now split.
    + apply Nat.eqb_refl.
  - destruct (existsb _ _) eqn:E; [|reflexivity].
    apply existsb_exists in E as (m & Hm & Em).
    apply filter_In in Hm as [Hm Qm]. apply Nat.eqb_eq in Em.
    rewrite (combine_seq_unique (elements form) 0 n m Hn Hm Em) in Qm.
    congruence.
Qed.

Lemma filter_both {A} (f g : A -> bool) (l : list A) :
  filter g (filter f l) = filter (fun x => f x && g x) l.
Proof.
  induction l as [|x l IH]; [reflexivity|]. simpl.
  destruct (f x); simpl; [|exact IH].
  destruct (g x); [now rewrite IH | exact IH].
Qed.

Lemma init_kept `{Host} (form : Form) (ignore : option string)
  (pf pi : Field -> bool) :
  selector "input[name], textarea, select" = Ok pf ->
  truthyAttr ignore = true ->
  selector (text ignore) = Ok pi ->
  init form ignore
  = Ok (filter (fun n => pf (snd n) && negb (pi (snd n))) (nodes form)).
Proof.
  intros Hpf Ht Hpi. unfold init, querySelectorAllNodes.
  rewrite Hpf. unfold rbind at 2. unfold rbind at 1. rewrite Ht, Hpi.
  unfold rbind. f_equal.
  rewrite <- (filter_both (fun n => pf (snd n)) (fun n => negb (pi (snd n)))).
  apply filter_ext_in. intros n Hn. apply filter_In in Hn as [Hn _].
  cbv beta. f_equal.
  exact (includes_filter form (fun m => pi (snd m)) n Hn).
Qed.

Lemma init_all `{Host} (form : Form) (ignore : option string)
  (pf : Field -> bool) :
  selector "input[name], textarea, select" = Ok pf ->
  truthyAttr ignore = false ->
  init form ignore = Ok (filter (fun n => pf (snd n)) (nodes form)).
Proof.
  intros Hpf Ht. unfold init, querySelectorAllNodes.
  rewrite Hpf. unfold rbind. now rewrite Ht.
Qed.

Lemma init_throws `{Host} (form : Form) (ignore : option string)
  (pf : Field -> bool) (e : Exn) :
  selector "input[name], textarea, select" = Ok pf ->
  truthyAttr ignore = true ->
  selector (text ignore) = Throw e ->
  init form ignore = Throw e.
Proof.
  intros Hpf Ht He. unfold init, querySelectorAllNodes.
  rewrite Hpf. unfold rbind at 2. unfold rbind at 1. rewrite Ht, He.
  reflexivity.
Qed.

(** X21.  The fields that [init] tracks are the elements of the form
    that match the selector of inputs with a name, textareas and selects
    and do not match the [ignore] selector, in document order; without
    an [ignore] setting (none, null or the empty string) they are all the
    matching elements; and a malformed [ignore] selector makes [init],
    and so the constructor, throw. *)
Theorem init_tracks `{Host} (form : Form) (ignore : option string)
  (pf : Field -> bool) :
  selector "input[name], textarea, select" = Ok pf ->
  (truthyAttr ignore = false ->
     init form ignore = Ok (filter (fun n => pf (snd n)) (nodes form)))
  /\ (truthyAttr ignore = true ->
      forall pi, selector (text ignore) = Ok pi ->
        init form ignore
        = Ok (filter (fun n => pf (snd n) && negb (pi (snd n)))
                (nodes form)))
  /\ (truthyAttr ignore = true ->
      forall e, selector (text ignore) = Throw e ->
        init form ignore = Throw e).
Proof.
  intros Hpf. split; [|split].
  - now apply init_all.
  - intros Ht pi Hpi. now apply init_kept.
  - intros Ht e He. now apply (init_throws form ignore pf).
Qed.

Lemma init_tracks_witness :
  @init Samples.host Samples.contact (Some ".skip")
  = Ok [(0%nat, Samples.named "a" "first" [])]
  /\ @init Samples.host Samples.contact (Some "..") = Throw SyntaxError.
Proof.
  split.
  - rewrite (proj1 (proj2 (@init_tracks Samples.host Samples.contact
                             (Some ".skip") _ eq_refl))
               eq_refl _ eq_refl).
    reflexivity.
  - exact (proj2 (proj2 (@init_tracks Samples.host Samples.contact
                           (Some "..") _ eq_refl))
             eq_refl SyntaxError eq_refl).
Defined.

End BindingFacts.
